(** * RatingsHelper: the ratings-prompt eligibility policy of the Web Clipper

    A shallow embedding of [src/scripts/clipperUI/ratingsHelper.ts] and the
    properties of its delay predicates, of the bad-rating recorder and of the
    evaluation that decides whether the ratings prompt is shown. *)

From Stdlib Require Import ZArith QArith Qabs Qround Lia Lqa List Ascii String Bool.
From stdpp Require Import base gmap strings.

Local Open Scope Z_scope.
Local Open Scope string_scope.

(** ** JavaScript values used by the module *)

(** A JavaScript [number].  Finite values are rationals: every binary64 value
    is one, and comparisons of binary64 values are exact.  The operations
    that produce a number ([parseInt] and the subtraction) round their exact
    result to the nearest binary64 value, as IEEE 754 does.  [Fin 0] stands
    for both zeros, which no comparison of the module separates. *)
Inductive number : Type :=
  | NaN
  | NegInf
  | PosInf
  | Fin (q : Q).

Definition ofZ (z : Z) : number := Fin (inject_Z z).

(** The global [isNaN] on a number. *)
Definition isNaN (x : number) : bool :=
  match x with NaN => true | _ => false end.

(** [a <= b] *)
Definition js_le (a b : number) : bool :=
  match a, b with
  | NaN, _ | _, NaN => false
  | NegInf, _ => true
  | _, PosInf => true
  | PosInf, _ => false
  | _, NegInf => false
  | Fin x, Fin y => Qle_bool x y
  end.

(** [a >= b] *)
Definition js_ge (a b : number) : bool := js_le b a.

(** [a > b] *)
Definition js_gt (a b : number) : bool :=
  match a, b with
  | NaN, _ | _, NaN => false
  | NegInf, _ => false
  | _, PosInf => false
  | PosInf, _ => true
  | _, NegInf => true
  | Fin x, Fin y => negb (Qle_bool x y)
  end.

(** *** Rounding to binary64

    The integer nearest to [a]; of two nearest ones, the even one. *)
Definition roundHalfEven (a : Q) : Z :=
  let f := Qfloor a in
  match Qcompare (a - inject_Z f) (1 # 2) with
  | Lt => f
  | Gt => f + 1
  | Eq => if Z.even f then f else f + 1
  end.

(** A binary64 value has 53 significant bits.  For a magnitude [a] counted
    in units, [2 ^ ulpExponent a] units is the distance between the
    neighbouring values that have 53 significant bits: one unit below 2^53,
    two units from 2^53 up to 2^54, and so on. *)
Definition ulpExponent (a : Q) : Z := Z.max 0 (Z.log2 (Qfloor a) - 52).

(** The nearest multiple of that distance, ties to the even multiple. *)
Definition roundMagnitude (a : Q) : Z :=
  let k := ulpExponent a in
  roundHalfEven (a / inject_Z (2 ^ k)) * 2 ^ k.

(** The binary64 value nearest to the rational [q].  Every finite binary64
    value is a multiple of 2^-1074, the unit here; a result of 2^1024 or
    more (2^2098 units) is an infinity. *)
Definition roundDouble (q : Q) : number :=
  let r := roundMagnitude (Qabs q * inject_Z (2 ^ 1074)) in
  if (2 ^ 2098 <=? r)%Z then (if Qle_bool 0 q then PosInf else NegInf)
  else Fin ((if Qle_bool 0 q then inject_Z r else inject_Z (- r))
            / inject_Z (2 ^ 1074)).

(** The binary64 value nearest to the integer [z]; the unit is 1. *)
Definition roundInteger (z : Z) : number :=
  let r := roundMagnitude (inject_Z (Z.abs z)) in
  if (2 ^ 1024 <=? r)%Z then (if (0 <=? z)%Z then PosInf else NegInf)
  else ofZ (if (0 <=? z)%Z then r else - r).

(** [a - b] *)
Definition js_sub (a b : number) : number :=
  match a, b with
  | NaN, _ | _, NaN => NaN
  | PosInf, PosInf | NegInf, NegInf => NaN
  | PosInf, _ => PosInf
  | NegInf, _ => NegInf
  | Fin _, PosInf => NegInf
  | Fin _, NegInf => PosInf
  | Fin x, Fin y => roundDouble (x - y)
  end.

(** [Math.abs], used to state the date bound. *)
Definition js_abs (a : number) : number :=
  match a with
  | NaN => NaN
  | NegInf | PosInf => PosInf
  | Fin x => Fin (Qabs x)
  end.

(** [a === b] on numbers. *)
Definition js_eq (a b : number) : bool :=
  match a, b with
  | NegInf, NegInf | PosInf, PosInf => true
  | Fin x, Fin y => Qeq_bool x y
  | _, _ => false
  end.

(** Truthiness of a number: [NaN] and zero are falsy. *)
Definition truthy (a : number) : bool :=
  match a with
  | NaN => false
  | Fin x => negb (Qeq_bool x 0)
  | _ => true
  end.

(** A value that is a number or [undefined] (the result of a function whose
    body can fall off its end). *)
Definition toNumber (v : option number) : number :=
  match v with Some n => n | None => NaN end.

(** [a > b] after [ToNumber]: [undefined] becomes [NaN]. *)
Definition gt_value (a b : option number) : bool :=
  js_gt (toNumber a) (toNumber b).

(** [a === b] on values: [undefined === undefined] holds. *)
Definition strict_eq_value (a b : option number) : bool :=
  match a, b with
  | None, None => true
  | Some x, Some y => js_eq x y
  | _, _ => false
  end.

(** ** Strings

    A string is a sequence of code units below 256.  A value of type
    [option string] is a string, or [null]/[undefined], which the module
    never tells apart ([Utils.isNullOrUndefined]). *)

Definition isNullOrUndefined {A : Type} (x : option A) : bool :=
  match x with None => true | Some _ => false end.

Definition code (c : ascii) : N := N_of_ascii c.

(** [String.prototype.toLowerCase] on one code unit: A-Z and the upper-case
    letters of the Latin-1 block move by 32. *)
Definition toLowerCaseChar (c : ascii) : ascii :=
  let n := code c in
  if ((65 <=? n) && (n <=? 90) ||
      (192 <=? n) && (n <=? 222) && negb (n =? 215))%N
  then ascii_of_N (n + 32) else c.

Fixpoint toLowerCase (s : string) : string :=
  match s with
  | EmptyString => EmptyString
  | String c s' => String (toLowerCaseChar c) (toLowerCase s')
  end.

(** [s.split(".")]: the segments between the dots; never an empty array. *)
Fixpoint split (s : string) : list string :=
  match s with
  | EmptyString => [EmptyString]
  | String c s' =>
      if Ascii.eqb c "." then EmptyString :: split s'
      else match split s' with
           | seg :: rest => String c seg :: rest
           | [] => [String c EmptyString]
           end
  end.

(** White space and line terminators skipped by [parseInt]: TAB, LF, VT, FF,
    CR, SP and NBSP. *)
Definition isWhiteSpace (c : ascii) : bool :=
  let n := code c in
  ((9 <=? n) && (n <=? 13) || (n =? 32) || (n =? 160))%N.

Fixpoint trimStart (s : string) : string :=
  match s with
  | String c s' => if isWhiteSpace c then trimStart s' else s
  | EmptyString => EmptyString
  end.

Definition digitValue (c : ascii) : option Z :=
  let n := code c in
  if ((48 <=? n) && (n <=? 57))%N then Some (Z.of_N n - 48) else None.

(** Value of the longest prefix of decimal digits; [acc] is [None] until a
    digit has been read. *)
Fixpoint digits (s : string) (acc : option Z) : option Z :=
  match s with
  | String c s' =>
      match digitValue c with
      | Some d => digits s' (Some (10 * default 0 acc + d))
      | None => acc
      end
  | EmptyString => acc
  end.

(** [parseInt(x, 10)].  [null] and [undefined] are first turned into the
    strings "null" and "undefined", which have no leading digit.  With radix
    10 given, a "0x" prefix is not special.  The result is the binary64 value
    nearest to the integer that the digits denote: that integer itself up to
    2^53 in magnitude, a rounded integer beyond, an infinity from 2^1024 on.
    (ECMAScript lets an implementation replace the digits after the
    twentieth by zeros before it rounds.) *)
Definition parseInt (x : option string) : number :=
  match x with
  | None => NaN
  | Some s =>
      let t := trimStart s in
      let '(sign, body) :=
        match t with
        | String "-" r => (-1, r)
        | String "+" r => (1, r)
        | _ => (1, t)
        end in
      match digits body None with
      | None => NaN
      | Some z => roundInteger (sign * z)
      end
  end.

(** ** Constants and collaborators *)

(** Modelled from the spec: the values of [Constants.StorageKeys] (declared in
    [constants.ts], which is not part of the sources at hand) are the
    persisted key names listed under "External interfaces". *)
Module StorageKeys.
Definition doNotPromptRatings : string := "doNotPromptRatings".
Definition lastBadRatingDate : string := "lastBadRatingDate".
Definition lastBadRatingVersion : string := "lastBadRatingVersion".
Definition lastSeenVersion : string := "lastSeenVersion".
Definition numSuccessfulClips : string := "numSuccessfulClips".
End StorageKeys.

(** The numeric constants of [Constants.Settings] that the module reads.
    Their values are not in the sources at hand; they are parameters. *)
Record Settings : Type := mkSettings {
  maximumJSTimeValue : Z;
  minTimeBetweenBadRatings : Z;
  minClipSuccessForRatingsPrompt : Z;
  maxClipSuccessForRatingsPrompt : Z }.

(** Values stored in the [RatingsLoggingInfo] object. *)
Inductive InfoValue : Type :=
  | VBool (b : bool)
  | VNum (n : number)
  | VStr (s : string)
  | VDateString (n : number)   (* [new Date(n).toString()] *)
  | VNull.

(** [RatingsLoggingInfo]: an object all of whose properties are optional;
    an assignment to a property is an insertion. *)
Abbreviation RatingsLoggingInfo := (gmap string InfoValue).

Inductive Label : Type := ShouldShowRatingsPrompt | SetDoNotPromptRatings.

Inductive Status : Type := Succeeded | Failed.

Inductive PropertyValue : Type :=
  | PBool (b : bool)
  | PJson (info : RatingsLoggingInfo).   (* [JSON.stringify(info)] *)

(** Modelled from the spec: a log event "carries a label, a status
    (Succeeded/Failed), and arbitrary named custom properties"; the classes of
    [logging/log] are not part of the sources at hand.  A new event has
    succeeded until told otherwise. *)
Record LogEvent : Type := mkEvent {
  label : Label;
  status : Status;
  failureInfo : option string;          (* the [error] of the failure info *)
  customProperties : gmap string PropertyValue }.

Definition newEvent (l : Label) : LogEvent := mkEvent l Succeeded None ∅.

Definition setStatus (s : Status) (e : LogEvent) : LogEvent :=
  mkEvent (label e) s (failureInfo e) (customProperties e).

Definition setFailureInfo (error : string) (e : LogEvent) : LogEvent :=
  mkEvent (label e) (status e) (Some error) (customProperties e).

Definition setCustomProperty (name : string) (v : PropertyValue) (e : LogEvent)
  : LogEvent :=
  mkEvent (label e) (status e) (failureInfo e) (<[name := v]> (customProperties e)).

(** A [SmartValue<boolean>] is a mutable cell; the session object refers to
    it, so it is a location in the store of cells. *)
Record SmartValue : Type := mkSmartValue { cell : positive }.

(** Everything outside the module that a call can observe or change. *)
Record World : Type := mkWorld {
  storage : gmap string string;            (* the cache of [Clipper.Storage] *)
  settings : gmap string string;           (* [Settings.getSetting] *)
  smartValues : gmap positive bool;        (* contents of the SmartValue cells *)
  clock : Z;                               (* [Date.now()] *)
  storageReads : list string;              (* keys passed to [getCachedValue] *)
  storageWrites : list (string * string);  (* calls of [setValue] *)
  logged : list LogEvent }.                (* events given to [Clipper.logger] *)

(** ** Calls that read or change the world *)

Definition M (A : Type) : Type := World -> A * World.

Definition ret {A : Type} (a : A) : M A := fun w => (a, w).

Definition bind {A B : Type} (m : M A) (k : A -> M B) : M B :=
  fun w => let '(a, w') := m w in k a w'.

Notation "x <- m ;; k" := (bind m (fun x => k))
  (at level 100, m at next level, right associativity).
Notation "m ;;; k" := (bind m (fun _ => k))
  (at level 100, right associativity).

(** [Clipper.Storage.getCachedValue(key)] *)
Definition getCachedValue (key : string) : M (option string) :=
  fun w => (storage w !! key,
            mkWorld (storage w) (settings w) (smartValues w) (clock w)
                    (storageReads w ++ [key]) (storageWrites w) (logged w)).

(** [Clipper.Storage.setValue(key, value)] *)
Definition setValue (key value : string) : M unit :=
  fun w => (tt,
            mkWorld (<[key := value]> (storage w)) (settings w) (smartValues w)
                    (clock w) (storageReads w)
                    (storageWrites w ++ [(key, value)]) (logged w)).

(** [Settings.getSetting(name)] *)
Definition getSetting (name : string) : M (option string) :=
  fun w => (settings w !! name, w).

(** [smartValue.get()] *)
Definition SmartValue_get (v : SmartValue) : M (option bool) :=
  fun w => (smartValues w !! cell v, w).

(** [Date.now()] *)
Definition Date_now : M number := fun w => (ofZ (clock w), w).

(** [Clipper.logger.logEvent(event)] *)
Definition logEvent (e : LogEvent) : M unit :=
  fun w => (tt,
            mkWorld (storage w) (settings w) (smartValues w) (clock w)
                    (storageReads w) (storageWrites w) (logged w ++ [e])).

Definition ofStored (x : option string) : InfoValue :=
  match x with Some s => VStr s | None => VNull end.

(** ** The functions of [RatingsHelper] *)

Section RatingsHelper.

(** [Constants.Settings] *)
Variable cfg : Settings.

(** The enumeration [ClientType] and the name [ClientType[clientType]] of a
    member; [clientType.ts] is not part of the sources at hand. *)
Variable ClientType : Type.
Variable ClientType_name : ClientType -> string.

Record ClientInfo : Type := mkClientInfo { clipperType : ClientType }.

(** What the module uses of [ClipperState]. *)
Record ClipperState : Type := mkClipperState {
  showRatingsPrompt : SmartValue;
  clientInfo : ClientInfo }.

Definition rateUrlSettingNameSuffix : string := "_RatingUrl".
Definition ratingsPromptEnabledSettingNameSuffix : string := "_RatingsEnabled".

Definition isValidDate (date : number) : bool :=
  let minimumTimeValue := maximumJSTimeValue cfg * -1 in
  js_ge date (ofZ minimumTimeValue) && js_le date (ofZ (maximumJSTimeValue cfg)).

(** [split] always returns an array, so the test that [versionSplit] is not
    null or undefined always passes; it is left out here and in the two
    functions that follow. *)
Definition versionHasCorrectFormat (version : option string) : bool :=
  match version with
  | Some v =>
      let versionSplit := split v in
      if negb (length versionSplit =? 3)%nat
         || isNaN (parseInt (versionSplit !! 0%nat))
         || isNaN (parseInt (versionSplit !! 1%nat))
         || isNaN (parseInt (versionSplit !! 2%nat))
      then false
      else true
  | None => false
  end.

(** The result is [None] when the body falls off its end. *)
Definition getMajorVersion (versionNum : option string) : option number :=
  match versionNum with
  | Some v => let versionSplit := split v in Some (parseInt (versionSplit !! 0%nat))
  | None => None
  end.

Definition getMinorVersion (versionNum : option string) : option number :=
  match versionNum with
  | Some v => let versionSplit := split v in Some (parseInt (versionSplit !! 1%nat))
  | None => None
  end.

Definition combineClientTypeAndSuffix (clientType : ClientType) (suffix : string)
  : string :=
  ClientType_name clientType ++ suffix.

Definition getRateUrlSettingNameForClient (clientType : ClientType) : string :=
  combineClientTypeAndSuffix clientType rateUrlSettingNameSuffix.

Definition getRatingsPromptEnabledSettingNameForClient (clientType : ClientType)
  : string :=
  combineClientTypeAndSuffix clientType ratingsPromptEnabledSettingNameSuffix.

Definition ratingsPromptEnabledForClient (clientType : ClientType) : M bool :=
  let settingName := getRatingsPromptEnabledSettingNameForClient clientType in
  isEnabledAsStr <- getSetting settingName ;;
  ret (match isEnabledAsStr with
       | Some s => String.eqb (toLowerCase s) "true"
       | None => false
       end).

Definition getRateUrlIfExists (clientType : ClientType) : M (option string) :=
  let settingName := getRateUrlSettingNameForClient clientType in
  getSetting settingName.

Definition badRatingTimingDelayIsOver (badRatingDate comparisonDate : number)
  : bool :=
  if isNaN badRatingDate then true
  else if negb (isValidDate badRatingDate) || negb (isValidDate comparisonDate)
  then false
  else js_ge (js_sub comparisonDate badRatingDate)
             (ofZ (minTimeBetweenBadRatings cfg)).

Definition badRatingVersionDelayIsOver (badRatingVersion lastSeenVersion : option string)
  : bool :=
  if isNullOrUndefined badRatingVersion then true
  else if negb (versionHasCorrectFormat lastSeenVersion)
          || negb (versionHasCorrectFormat badRatingVersion)
  then false
  else
    let lastSeenMajor := getMajorVersion lastSeenVersion in
    let badRatingMajor := getMajorVersion badRatingVersion in
    if gt_value lastSeenMajor badRatingMajor then true
    else
      let lastSeenMinor := getMinorVersion lastSeenVersion in
      let badRatingMinor := getMinorVersion badRatingVersion in
      if strict_eq_value lastSeenMajor badRatingMajor
         && gt_value lastSeenMinor badRatingMinor
      then true
      else false.

Definition clipSuccessDelayIsOver (numClips : number) : bool :=
  if isNaN numClips then false
  else js_ge numClips (ofZ (minClipSuccessForRatingsPrompt cfg))
       && js_le numClips (ofZ (maxClipSuccessForRatingsPrompt cfg)).

Definition setLastBadRating (badRatingDateToSetAsStr badRatingVersionToSet : string)
  : M bool :=
  let badDateKey := StorageKeys.lastBadRatingDate in
  let badRatingDateToSet := parseInt (Some badRatingDateToSetAsStr) in
  if negb (isValidDate badRatingDateToSet) then ret true
  else if negb (versionHasCorrectFormat (Some badRatingVersionToSet)) then ret true
  else
    lastBadRatingDateAsStr <- getCachedValue badDateKey ;;
    let lastBadRatingDate := parseInt lastBadRatingDateAsStr in
    let badRatingAlreadyOccurred :=
      if negb (isNaN lastBadRatingDate) && isValidDate lastBadRatingDate
      then true else false in
    setValue badDateKey badRatingDateToSetAsStr ;;;
    setValue StorageKeys.lastBadRatingVersion badRatingVersionToSet ;;;
    ret badRatingAlreadyOccurred.

Definition setDoNotPromptStatus : M unit :=
  setValue StorageKeys.doNotPromptRatings "true" ;;;
  logEvent (newEvent SetDoNotPromptRatings).

(** The event and the logging info are objects that the caller creates and
    this function fills in; their final contents are returned with the
    result.  An early [return] is the end of a branch. *)
Definition shouldShowRatingsPromptInternal (clipperState : option ClipperState)
    (event : LogEvent) (logEventInfo : RatingsLoggingInfo)
  : M (bool * LogEvent * RatingsLoggingInfo) :=
  match clipperState with
  | None =>
      let event := setStatus Failed event in
      let event := setFailureInfo "Clipper state is null or undefined" event in
      ret (false, event, logEventInfo)
  | Some clipperState =>
      cached <- SmartValue_get (showRatingsPrompt clipperState) ;;
      match cached with
      | Some value =>
          (* the cell is read again for the result; nothing ran in between *)
          let logEventInfo := <["usedCachedValue" := VBool true]> logEventInfo in
          ret (value, event, logEventInfo)
      | None =>
          ratingsPromptEnabled <-
            ratingsPromptEnabledForClient (clipperType (clientInfo clipperState)) ;;
          let logEventInfo :=
            <["ratingsPromptEnabledForClient" := VBool ratingsPromptEnabled]>
              logEventInfo in
          if negb ratingsPromptEnabled then ret (false, event, logEventInfo)
          else
            doNotPromptRatingsStr <- getCachedValue StorageKeys.doNotPromptRatings ;;
            lastBadRatingDateAsStr <- getCachedValue StorageKeys.lastBadRatingDate ;;
            lastBadRatingVersion <- getCachedValue StorageKeys.lastBadRatingVersion ;;
            lastSeenVersion <- getCachedValue StorageKeys.lastSeenVersion ;;
            numClipsAsStr <- getCachedValue StorageKeys.numSuccessfulClips ;;
            if match doNotPromptRatingsStr with
               | Some s => String.eqb (toLowerCase s) "true"
               | None => false
               end
            then
              let logEventInfo := <["doNotPromptRatings" := VBool true]> logEventInfo in
              ret (false, event, logEventInfo)
            else
              let lastBadRatingDate := parseInt lastBadRatingDateAsStr in
              let numClips := parseInt numClipsAsStr in
              let logEventInfo :=
                <["lastBadRatingDate" :=
                    if truthy lastBadRatingDate then VDateString lastBadRatingDate
                    else VNull]> logEventInfo in
              let logEventInfo :=
                <["lastBadRatingVersion" := ofStored lastBadRatingVersion]>
                  logEventInfo in
              let logEventInfo :=
                <["lastSeenVersion" := ofStored lastSeenVersion]> logEventInfo in
              let logEventInfo :=
                <["numSuccessfulClips" := VNum numClips]> logEventInfo in
              now <- Date_now ;;
              let timingDelayIsOver :=
                badRatingTimingDelayIsOver lastBadRatingDate now in
              let versionDelayIsOver :=
                badRatingVersionDelayIsOver lastBadRatingVersion lastSeenVersion in
              let clipDelayIsOver := clipSuccessDelayIsOver numClips in
              let logEventInfo :=
                <["badRatingTimingDelayIsOver" := VBool timingDelayIsOver]>
                  logEventInfo in
              let logEventInfo :=
                <["badRatingVersionDelayIsOver" := VBool versionDelayIsOver]>
                  logEventInfo in
              let logEventInfo :=
                <["clipSuccessDelayIsOver" := VBool clipDelayIsOver]>
                  logEventInfo in
              if timingDelayIsOver && versionDelayIsOver && clipDelayIsOver
              then ret (true, event, logEventInfo)
              else ret (false, event, logEventInfo)
      end
  end.

Definition shouldShowRatingsPrompt (clipperState : option ClipperState) : M bool :=
  let shouldShowRatingsPromptEvent := newEvent ShouldShowRatingsPrompt in
  let shouldShowRatingsPromptInfo : RatingsLoggingInfo := ∅ in
  r <- shouldShowRatingsPromptInternal clipperState shouldShowRatingsPromptEvent
         shouldShowRatingsPromptInfo ;;
  let '(shouldShow, event, info) := r in
  let event := setCustomProperty "ShouldShowRatingsPrompt" (PBool shouldShow) event in
  let event := setCustomProperty "RatingsInfo" (PJson info) event in
  logEvent event ;;;
  ret shouldShow.

End RatingsHelper.

Arguments mkClientInfo {ClientType} _.
Arguments clipperType {ClientType} _.
Arguments mkClipperState {ClientType} _ _.
Arguments showRatingsPrompt {ClientType} _.
Arguments clientInfo {ClientType} _.
Arguments combineClientTypeAndSuffix {ClientType} _ _ _.
Arguments getRateUrlSettingNameForClient {ClientType} _ _.
Arguments getRatingsPromptEnabledSettingNameForClient {ClientType} _ _.
Arguments ratingsPromptEnabledForClient {ClientType} _ _.
Arguments getRateUrlIfExists {ClientType} _ _.
Arguments shouldShowRatingsPromptInternal _ {ClientType} _ _ _ _.
Arguments shouldShowRatingsPrompt _ {ClientType} _ _.

(** ** Notions used to state the properties *)

(** A number that is an integer and not negative. *)
Definition isNonNegativeInteger (n : number) : bool :=
  match n with
  | Fin q => ((Z.pos (Qden (Qred q)) =? 1) && (0 <=? Qnum q))%Z
  | _ => false
  end.

(** A string all of whose code units are decimal digits. *)
Fixpoint allDigits (s : string) : bool :=
  match s with
  | EmptyString => true
  | String c s' =>
      match digitValue c with Some _ => allDigits s' | None => false end
  end.

(** The integer that a string denotes when it is a decimal integer and
    nothing else: digits, after a minus sign if any. *)
Definition integerValue (s : string) : option Z :=
  match s with
  | String "-" r => if allDigits r then option_map Z.opp (digits r None) else None
  | _ => if allDigits s then digits s None else None
  end.

(** Major, minor and patch of a string that is exactly three decimal
    integers separated by dots. *)
Definition integerSegments (v : string) : option (Z * Z * Z) :=
  match split v with
  | [s0; s1; s2] =>
      match integerValue s0, integerValue s1, integerValue s2 with
      | Some major, Some minor, Some patch => Some (major, minor, patch)
      | _, _, _ => None
      end
  | _ => None
  end.

(** The session's cached decision: the content of the cell that the session
    object refers to. *)
Definition cachedDecision {ClientType : Type} (clipperState : ClipperState ClientType)
    (w : World) : option bool :=
  smartValues w !! cell (showRatingsPrompt clipperState).

(** ** Example data *)

(** [n] zeros. *)
Fixpoint zeros (n : nat) : string :=
  match n with
  | O => EmptyString
  | S n' => String "0" (zeros n')
  end.

(** A version whose major is a one followed by 309 zeros. *)
Definition hugeVersion : string := String "1" (zeros 309) ++ ".0.0".

(** The usage window of the specification's end-to-end example (3 to 10
    clips), the ECMAScript bound on time values and a ten-week interval. *)
Definition exampleSettings : Settings :=
  mkSettings 8640000000000000 6048000000 3 10.

Inductive ExampleClient : Type := ChromeExtension | EdgeExtension.

Definition ExampleClient_name (c : ExampleClient) : string :=
  match c with
  | ChromeExtension => "ChromeExtension"
  | EdgeExtension => "EdgeExtension"
  end.

Definition exampleSession : ClipperState ExampleClient :=
  mkClipperState (mkSmartValue 1) (mkClientInfo ChromeExtension).

(** A world at session start: nothing stored, nothing cached, no setting. *)
Definition emptyWorld : World := mkWorld ∅ ∅ ∅ 1500000000000 [] [] [].

(** The prompt is enabled for Chrome and the user has clipped five times. *)
Definition freshWorld : World :=
  mkWorld {[ "numSuccessfulClips" := "5" ]} {[ "ChromeExtension_RatingsEnabled" := "true" ]}
          ∅ 1500000000000 [] [] [].

(** As [freshWorld], with the do-not-prompt flag stored in capitals. *)
Definition optedOutWorld : World :=
  mkWorld {[ "numSuccessfulClips" := "5"; "doNotPromptRatings" := "TRUE" ]}
          {[ "ChromeExtension_RatingsEnabled" := "true" ]}
          ∅ 1500000000000 [] [] [].

(** The session holds the decision [true] and the prompt is not enabled. *)
Definition cachedWorld : World :=
  mkWorld {[ "numSuccessfulClips" := "5" ]} ∅ {[ 1%positive := true ]}
          1500000000000 [] [] [].

(** A bad rating was recorded at time 1000 for version 3.0.1. *)
Definition ratedWorld : World :=
  mkWorld {[ "lastBadRatingDate" := "1000"; "lastBadRatingVersion" := "3.0.1" ]}
          ∅ ∅ 1500000000000 [] [] [].

(** ** Further functions and notions *)

(** [preCacheNeededValues].  [Clipper.Storage.preCacheValues] belongs to the
    storage, outside the module; it is a parameter and receives the array
    that the function builds. *)
Definition preCacheNeededValues (preCacheValues : list string -> M unit) : M unit :=
  let ratingsPromptStorageKeys :=
    [StorageKeys.doNotPromptRatings;
     StorageKeys.lastBadRatingDate;
     StorageKeys.lastBadRatingVersion;
     StorageKeys.lastSeenVersion;
     StorageKeys.numSuccessfulClips] in
  preCacheValues ratingsPromptStorageKeys.

(** Whether a string contains a dot. *)
Fixpoint hasDot (s : string) : bool :=
  match s with
  | EmptyString => false
  | String c s' => Ascii.eqb c "." || hasDot s'
  end.

(** The last code unit of a string. *)
Fixpoint lastChar (s : string) : option ascii :=
  match s with
  | EmptyString => None
  | String c EmptyString => Some c
  | String _ s' => lastChar s'
  end.

(** The world with one more setting. *)
Definition withSetting (settingName value : string) (w : World) : World :=
  mkWorld (storage w) (<[settingName := value]> (settings w)) (smartValues w)
          (clock w) (storageReads w) (storageWrites w) (logged w).

(** A client whose prompt is enabled, after a bad rating at time 1000 for
    version 3.0.1, seen last at version 3.0.1, with five clips. *)
Definition returningWorld : World :=
  mkWorld {[ "numSuccessfulClips" := "5"; "lastSeenVersion" := "3.0.1" ]}
          {[ "ChromeExtension_RatingsEnabled" := "true" ]}
          ∅ 1500000000000 [] [] [].

(** * Properties *)

(** ** Comparisons of numbers *)

Lemma Qle_bool_inject_Z (a b : Z) :
  Qle_bool (inject_Z a) (inject_Z b) = (a <=? b)%Z.
Proof. unfold Qle_bool; simpl. now rewrite !Z.mul_1_r. Qed.

Lemma js_le_ofZ (a b : Z) : js_le (ofZ a) (ofZ b) = (a <=? b)%Z.
Proof. apply Qle_bool_inject_Z. Qed.

Lemma js_gt_ofZ (a b : Z) : js_gt (ofZ a) (ofZ b) = (b <? a)%Z.
Proof.
  unfold ofZ; simpl. rewrite Qle_bool_inject_Z.
  now rewrite Z.ltb_antisym.
Qed.

Lemma js_eq_ofZ (a b : Z) : js_eq (ofZ a) (ofZ b) = (a =? b)%Z.
Proof.
  unfold ofZ, js_eq, Qeq_bool; simpl. now rewrite !Z.mul_1_r.
Qed.

Lemma js_le_nan_l (b : number) : js_le NaN b = false.
Proof. reflexivity. Qed.

Lemma js_le_nan_r (a : number) : js_le a NaN = false.
Proof. now destruct a. Qed.

Lemma js_le_Fin (x y : Q) : js_le (Fin x) (Fin y) = true <-> (x <= y)%Q.
Proof. apply Qle_bool_iff. Qed.

(** ** Rounding to binary64 *)

Lemma roundHalfEven_comp (a b : Q) : a == b -> roundHalfEven a = roundHalfEven b.
Proof.
  intros H. unfold roundHalfEven. rewrite (Qfloor_comp _ _ H).
  assert (E : a - inject_Z (Qfloor b) == b - inject_Z (Qfloor b)) by (rewrite H; reflexivity).
  now rewrite (Qcompare_comp _ _ E (1 # 2) (1 # 2) (Qeq_refl _)).
Qed.

Lemma roundHalfEven_bounds (a : Q) :
  Qfloor a <= roundHalfEven a <= Qfloor a + 1.
Proof.
  unfold roundHalfEven.
  destruct (a - inject_Z (Qfloor a) ?= 1 # 2)%Q; try lia.
  destruct (Z.even (Qfloor a)); lia.
Qed.

Lemma roundHalfEven_inject (n : Z) : roundHalfEven (inject_Z n) = n.
Proof.
  unfold roundHalfEven. rewrite Qfloor_Z.
  destruct (Qcompare_spec (inject_Z n - inject_Z n) (1 # 2)); [lra | reflexivity | lra].
Qed.

Lemma roundHalfEven_mono (a b : Q) :
  (a <= b)%Q -> roundHalfEven a <= roundHalfEven b.
Proof.
  intros H. pose proof (Qfloor_resp_le _ _ H) as Hf.
  destruct (Z.eq_dec (Qfloor a) (Qfloor b)) as [E | E].
  - unfold roundHalfEven. rewrite E.
    destruct (Qcompare_spec (a - inject_Z (Qfloor b)) (1 # 2));
      destruct (Qcompare_spec (b - inject_Z (Qfloor b)) (1 # 2));
      try lra; destruct (Z.even (Qfloor b)); lia.
  - pose proof (roundHalfEven_bounds a). pose proof (roundHalfEven_bounds b). lia.
Qed.

Lemma roundHalfEven_le (a : Q) (n : Z) :
  (a <= inject_Z n)%Q -> roundHalfEven a <= n.
Proof.
  intros H. rewrite <- (roundHalfEven_inject n). now apply roundHalfEven_mono.
Qed.

Lemma roundHalfEven_ge (a : Q) (n : Z) :
  (inject_Z n <= a)%Q -> n <= roundHalfEven a.
Proof.
  intros H. rewrite <- (roundHalfEven_inject n) at 1. now apply roundHalfEven_mono.
Qed.

Lemma pow2_pos (k : Z) : 0 <= k -> (0 < inject_Z (2 ^ k))%Q.
Proof.
  intros Hk. change 0%Q with (inject_Z 0). rewrite <- Zlt_Qlt.
  apply Z.pow_pos_nonneg; lia.
Qed.

Lemma ulpExponent_nonneg (a : Q) : 0 <= ulpExponent a.
Proof. unfold ulpExponent. lia. Qed.

Lemma ulpExponent_mono (a b : Q) : (a <= b)%Q -> ulpExponent a <= ulpExponent b.
Proof.
  intros H. unfold ulpExponent.
  pose proof (Z.log2_le_mono _ _ (Qfloor_resp_le _ _ H)). lia.
Qed.

Lemma roundMagnitude_comp (a b : Q) : a == b -> roundMagnitude a = roundMagnitude b.
Proof.
  intros H. unfold roundMagnitude, ulpExponent. rewrite (Qfloor_comp _ _ H).
  f_equal. apply roundHalfEven_comp. now rewrite H.
Qed.

Lemma roundMagnitude_upper (a : Q) :
  (0 <= a)%Q -> roundMagnitude a <= 2 ^ (53 + ulpExponent a).
Proof.
  intros Ha. unfold roundMagnitude.
  pose proof (ulpExponent_nonneg a) as Hk.
  set (k := ulpExponent a) in *.
  rewrite Z.pow_add_r by lia.
  apply Z.mul_le_mono_nonneg_r; [apply Z.pow_nonneg; lia|].
  apply roundHalfEven_le. apply Qle_shift_div_r; [now apply pow2_pos|].
  rewrite <- inject_Z_mult, <- Z.pow_add_r by lia.
  assert (Hf : Qfloor a + 1 <= 2 ^ (53 + k)).
  { assert (H0 : 0 <= Qfloor a).
    { rewrite <- (Qfloor_Z 0). now apply Qfloor_resp_le. }
    destruct (Z.eq_dec (Qfloor a) 0) as [E | E].
    - rewrite E. assert (2 ^ 1 <= 2 ^ (53 + k)) by (apply Z.pow_le_mono_r; lia).
      simpl in *. lia.
    - pose proof (Z.log2_spec (Qfloor a) ltac:(lia)) as [_ Hs].
      assert (2 ^ Z.succ (Z.log2 (Qfloor a)) <= 2 ^ (53 + k)).
      { apply Z.pow_le_mono_r; [lia|]. unfold k, ulpExponent. lia. }
      lia. }
  apply Qlt_le_weak. eapply Qlt_le_trans; [apply Qlt_floor|].
  now rewrite <- Zle_Qle.
Qed.

Lemma roundMagnitude_lower (a : Q) :
  0 < ulpExponent a -> 2 ^ (52 + ulpExponent a) <= roundMagnitude a.
Proof.
  intros Hk. unfold roundMagnitude.
  set (k := ulpExponent a) in *.
  rewrite Z.pow_add_r by lia.
  apply Z.mul_le_mono_nonneg_r; [apply Z.pow_nonneg; lia|].
  apply roundHalfEven_ge. apply Qle_shift_div_l; [apply pow2_pos; lia|].
  rewrite <- inject_Z_mult, <- Z.pow_add_r by lia.
  eapply Qle_trans; [|apply Qfloor_le]. rewrite <- Zle_Qle.
  assert (Hl : Z.log2 (Qfloor a) = 52 + k) by (unfold k, ulpExponent in *; lia).
  assert (Hp : 0 < Qfloor a).
  { destruct (Z_lt_le_dec 0 (Qfloor a)) as [H | H]; [exact H|].
    rewrite (Z.log2_nonpos _ H) in Hl. lia. }
  rewrite <- Hl. apply Z.log2_spec. exact Hp.
Qed.

Lemma roundMagnitude_mono (a b : Q) :
  (0 <= a)%Q -> (a <= b)%Q -> roundMagnitude a <= roundMagnitude b.
Proof.
  intros Ha Hab. pose proof (ulpExponent_mono _ _ Hab) as Hk.
  destruct (Z.eq_dec (ulpExponent a) (ulpExponent b)) as [E | E].
  - unfold roundMagnitude. rewrite E.
    pose proof (ulpExponent_nonneg b) as Hb.
    apply Z.mul_le_mono_nonneg_r; [apply Z.pow_nonneg; lia|].
    apply roundHalfEven_mono. unfold Qdiv.
    apply Qmult_le_compat_r; [exact Hab|].
    apply Qlt_le_weak, Qinv_lt_0_compat. now apply pow2_pos.
  - pose proof (roundMagnitude_upper a Ha).
    pose proof (ulpExponent_nonneg a).
    pose proof (roundMagnitude_lower b ltac:(lia)).
    assert (2 ^ (53 + ulpExponent a) <= 2 ^ (52 + ulpExponent b))
      by (apply Z.pow_le_mono_r; lia).
    lia.
Qed.

Lemma roundMagnitude_nonneg (a : Q) : (0 <= a)%Q -> 0 <= roundMagnitude a.
Proof.
  intros Ha. unfold roundMagnitude. pose proof (ulpExponent_nonneg a) as Hk.
  apply Z.mul_nonneg_nonneg; [|apply Z.pow_nonneg; lia].
  apply roundHalfEven_ge. apply Qle_shift_div_l; [now apply pow2_pos|].
  now rewrite Qmult_0_l.
Qed.

(** A magnitude that is a multiple of its unit in the last place is kept. *)
Lemma roundMagnitude_exact (m k : Z) :
  0 <= k -> ulpExponent (inject_Z (m * 2 ^ k)) = k ->
  roundMagnitude (inject_Z (m * 2 ^ k)) = m * 2 ^ k.
Proof.
  intros Hk E. unfold roundMagnitude. rewrite E. f_equal.
  rewrite <- (roundHalfEven_inject m) at 2. apply roundHalfEven_comp.
  rewrite inject_Z_mult. field.
  intros H. pose proof (pow2_pos k Hk) as Hp. rewrite H in Hp. discriminate.
Qed.

Lemma roundMagnitude_small (n s : Z) :
  0 <= s -> 0 <= n <= 2 ^ 53 ->
  roundMagnitude (inject_Z (n * 2 ^ s)) = n * 2 ^ s.
Proof.
  intros Hs [Hn0 Hn].
  assert (Hfl : forall x, ulpExponent (inject_Z x) = Z.max 0 (Z.log2 x - 52)).
  { intros x. unfold ulpExponent. now rewrite Qfloor_Z. }
  destruct (Z.eq_dec n 0) as [-> | Hnz].
  { change (0 * 2 ^ s) with (0 * 2 ^ 0). apply roundMagnitude_exact; [lia|].
    rewrite Hfl. reflexivity. }
  assert (Hlog : Z.log2 (n * 2 ^ s) = s + Z.log2 n)
    by (apply Z.log2_mul_pow2; lia).
  destruct (Z.eq_dec n (2 ^ 53)) as [-> | Hne].
  - replace (2 ^ 53 * 2 ^ s) with (2 ^ 52 * 2 ^ (s + 1))
      by (rewrite (Z.pow_add_r 2 s 1) by lia; lia).
    apply roundMagnitude_exact; [lia|].
    rewrite Hfl.
    replace (2 ^ 52 * 2 ^ (s + 1)) with (2 ^ 53 * 2 ^ s)
      by (rewrite (Z.pow_add_r 2 s 1) by lia; lia).
    rewrite Hlog, Z.log2_pow2 by lia. lia.
  - assert (Hl : Z.log2 n <= 52).
    { assert (Z.log2 n < 53) by (apply Z.log2_lt_pow2; lia). lia. }
    set (k := Z.max 0 (s + Z.log2 n - 52)).
    assert (Hks : 0 <= k <= s) by lia.
    replace (n * 2 ^ s) with (n * 2 ^ (s - k) * 2 ^ k).
    2: { rewrite <- Z.mul_assoc, <- Z.pow_add_r by lia. f_equal. f_equal. lia. }
    apply roundMagnitude_exact; [lia|].
    rewrite Hfl.
    replace (n * 2 ^ (s - k) * 2 ^ k) with (n * 2 ^ s).
    2: { rewrite <- Z.mul_assoc, <- Z.pow_add_r by lia. f_equal. f_equal. lia. }
    rewrite Hlog. unfold k. lia.
Qed.

Lemma scaled_le (a b : Z) :
  a <= b -> (inject_Z a / inject_Z (2 ^ 1074) <= inject_Z b / inject_Z (2 ^ 1074))%Q.
Proof.
  intros H. unfold Qdiv. apply Qmult_le_compat_r; [now rewrite <- Zle_Qle|].
  apply Qlt_le_weak, Qinv_lt_0_compat. apply pow2_pos. lia.
Qed.

(** Rounding to the nearest binary64 value keeps the order. *)
Lemma roundDouble_mono (x y : Q) :
  (x <= y)%Q -> js_le (roundDouble x) (roundDouble y) = true.
Proof.
  intros H. unfold roundDouble.
  assert (HS : (0 <= inject_Z (2 ^ 1074))%Q) by (apply Qlt_le_weak, pow2_pos; lia).
  assert (Hx : 0 <= roundMagnitude (Qabs x * inject_Z (2 ^ 1074))).
  { apply roundMagnitude_nonneg. apply Qmult_le_0_compat; [apply Qabs_nonneg | exact HS]. }
  assert (Hy : 0 <= roundMagnitude (Qabs y * inject_Z (2 ^ 1074))).
  { apply roundMagnitude_nonneg. apply Qmult_le_0_compat; [apply Qabs_nonneg | exact HS]. }
  destruct (Qle_bool 0 x) eqn:Bx; destruct (Qle_bool 0 y) eqn:By.
  - apply Qle_bool_iff in Bx, By.
    assert (Hm : roundMagnitude (Qabs x * inject_Z (2 ^ 1074))
                 <= roundMagnitude (Qabs y * inject_Z (2 ^ 1074))).
    { apply roundMagnitude_mono.
      - apply Qmult_le_0_compat; [apply Qabs_nonneg | exact HS].
      - apply Qmult_le_compat_r; [|exact HS].
        now rewrite !Qabs_pos by assumption. }
    destruct (Z.leb_spec (2 ^ 2098) (roundMagnitude (Qabs x * inject_Z (2 ^ 1074))));
      destruct (Z.leb_spec (2 ^ 2098) (roundMagnitude (Qabs y * inject_Z (2 ^ 1074))));
      try reflexivity; [lia|].
    cbn [js_le]. apply Qle_bool_iff. now apply scaled_le.
  - apply Qle_bool_iff in Bx. apply not_true_iff_false in By.
    exfalso. apply By. apply Qle_bool_iff. exact (Qle_trans _ _ _ Bx H).
  - destruct (2 ^ 2098 <=? roundMagnitude (Qabs x * inject_Z (2 ^ 1074)))%Z;
      destruct (2 ^ 2098 <=? roundMagnitude (Qabs y * inject_Z (2 ^ 1074)))%Z;
      try reflexivity.
    cbn [js_le]. apply Qle_bool_iff. apply scaled_le. lia.
  - assert (Bx' : (x < 0)%Q).
    { apply Qnot_le_lt. intros C. apply Qle_bool_iff in C. congruence. }
    assert (By' : (y < 0)%Q).
    { apply Qnot_le_lt. intros C. apply Qle_bool_iff in C. congruence. }
    assert (Hm : roundMagnitude (Qabs y * inject_Z (2 ^ 1074))
                 <= roundMagnitude (Qabs x * inject_Z (2 ^ 1074))).
    { apply roundMagnitude_mono.
      - apply Qmult_le_0_compat; [apply Qabs_nonneg | exact HS].
      - apply Qmult_le_compat_r; [|exact HS].
        rewrite !Qabs_neg by (now apply Qlt_le_weak). now apply Qopp_le_compat. }
    destruct (Z.leb_spec (2 ^ 2098) (roundMagnitude (Qabs x * inject_Z (2 ^ 1074))));
      destruct (Z.leb_spec (2 ^ 2098) (roundMagnitude (Qabs y * inject_Z (2 ^ 1074))));
      try reflexivity; [lia|].
    cbn [js_le]. apply Qle_bool_iff. apply scaled_le. lia.
Qed.

(** Integers up to 2^53 in magnitude are binary64 values: rounding keeps
    them. *)
Lemma roundDouble_integer (n : Z) :
  Z.abs n <= 2 ^ 53 ->
  exists x : Q, roundDouble (inject_Z n) = Fin x /\ x == inject_Z n.
Proof.
  intros Hn. unfold roundDouble.
  assert (Hm : roundMagnitude (Qabs (inject_Z n) * inject_Z (2 ^ 1074))
               = Z.abs n * 2 ^ 1074).
  { rewrite <- (roundMagnitude_small (Z.abs n) 1074) by lia.
    apply roundMagnitude_comp. rewrite inject_Z_mult.
    apply Qmult_comp; [|reflexivity].
    unfold Qabs, inject_Z. reflexivity. }
  rewrite Hm.
  assert (Hlt : Z.abs n * 2 ^ 1074 < 2 ^ 2098).
  { assert (2 ^ 53 * 2 ^ 1074 < 2 ^ 2098) by (rewrite <- Z.pow_add_r by lia;
                                              apply Z.pow_lt_mono_r; lia).
    assert (Z.abs n * 2 ^ 1074 <= 2 ^ 53 * 2 ^ 1074)
      by (apply Z.mul_le_mono_nonneg_r; [apply Z.pow_nonneg|]; lia).
    lia. }
  apply Z.leb_gt in Hlt. rewrite Hlt.
  assert (Hnz : ~ inject_Z (2 ^ 1074) == 0).
  { intros H. pose proof (pow2_pos 1074 ltac:(lia)) as Hp. rewrite H in Hp. discriminate. }
  eexists. split; [reflexivity|].
  destruct (Qle_bool 0 (inject_Z n)) eqn:B.
  - apply Qle_bool_iff in B. change 0%Q with (inject_Z 0) in B.
    rewrite <- Zle_Qle in B. rewrite Z.abs_eq by exact B.
    rewrite inject_Z_mult. now field.
  - assert (B' : n < 0).
    { destruct (Z_lt_le_dec n 0) as [L | L]; [exact L|]. exfalso.
      apply not_true_iff_false in B. apply B. apply Qle_bool_iff.
      change 0%Q with (inject_Z 0). now rewrite <- Zle_Qle. }
    rewrite Z.abs_neq by lia.
    rewrite inject_Z_opp, inject_Z_mult, inject_Z_opp. now field.
Qed.

Lemma roundInteger_exact (z : Z) : Z.abs z <= 2 ^ 53 -> roundInteger z = ofZ z.
Proof.
  intros Hz. unfold roundInteger.
  pose proof (roundMagnitude_small (Z.abs z) 0 ltac:(lia) ltac:(lia)) as Hm.
  rewrite Z.pow_0_r, Z.mul_1_r in Hm. rewrite Hm.
  assert (Hlt : Z.abs z < 2 ^ 1024).
  { assert (2 ^ 53 < 2 ^ 1024) by (apply Z.pow_lt_mono_r; lia). lia. }
  apply Z.leb_gt in Hlt. rewrite Hlt.
  destruct (Z.leb_spec 0 z); f_equal; lia.
Qed.

Lemma roundInteger_cases (z : Z) :
  (exists z' : Z, roundInteger z = ofZ z')
  \/ roundInteger z = PosInf \/ roundInteger z = NegInf.
Proof.
  unfold roundInteger.
  destruct (2 ^ 1024 <=? roundMagnitude (inject_Z (Z.abs z)))%Z.
  - destruct (0 <=? z)%Z; auto.
  - left. eauto.
Qed.

Lemma roundInteger_not_nan (z : Z) : isNaN (roundInteger z) = false.
Proof.
  destruct (roundInteger_cases z) as [(z' & ->) | [-> | ->]]; reflexivity.
Qed.

(** ** Comparisons after a subtraction *)

Lemma js_le_trans (a b c : number) :
  js_le a b = true -> js_le b c = true -> js_le a c = true.
Proof.
  destruct a as [| | |x], b as [| | |y], c as [| | |z];
    try discriminate; try reflexivity.
  cbn [js_le]. rewrite !Qle_bool_iff. apply Qle_trans.
Qed.

Lemma js_le_Fin_l (x y : Q) (n : number) :
  x == y -> js_le (Fin x) n = js_le (Fin y) n.
Proof.
  intros H. destruct n as [| | |z]; try reflexivity.
  cbn [js_le]. apply eq_true_iff_eq. rewrite !Qle_bool_iff. now rewrite H.
Qed.

Lemma js_le_below (n : number) (y t : Q) :
  js_le n (Fin y) = true -> (y < t)%Q -> js_le (Fin t) n = false.
Proof.
  destruct n as [| | |z]; try discriminate; try reflexivity.
  cbn [js_le]. rewrite Qle_bool_iff. intros H1 H2.
  apply not_true_iff_false. rewrite Qle_bool_iff. intros H3.
  apply (Qlt_irrefl t). eapply Qle_lt_trans; [exact H3|].
  eapply Qle_lt_trans; [exact H1 | exact H2].
Qed.

Lemma inject_Z_sub (c b : Z) : inject_Z c - inject_Z b == inject_Z (c - b).
Proof.
  unfold Qminus. rewrite <- inject_Z_opp, <- inject_Z_plus. reflexivity.
Qed.

(** On integers the subtraction rounds, but the comparison of the difference
    with an integer below 2^53 in magnitude is the exact one. *)
Lemma js_ge_sub_ofZ (c b m : Z) :
  Z.abs m < 2 ^ 53 ->
  js_ge (js_sub (ofZ c) (ofZ b)) (ofZ m) = (m <=? c - b)%Z.
Proof.
  intros Hm. unfold js_ge, js_sub, ofZ.
  destruct (Z.leb_spec m (c - b)) as [H | H].
  - destruct (roundDouble_integer m ltac:(lia)) as (x & Ex & Hx).
    rewrite <- (js_le_Fin_l _ _ _ Hx), <- Ex.
    apply roundDouble_mono. rewrite inject_Z_sub. now rewrite <- Zle_Qle.
  - destruct (roundDouble_integer (m - 1) ltac:(lia)) as (x & Ex & Hx).
    apply js_le_below with (y := x).
    + rewrite <- Ex. apply roundDouble_mono. rewrite inject_Z_sub.
      rewrite <- Zle_Qle. lia.
    + rewrite Hx. rewrite <- Zlt_Qlt. lia.
Qed.

Section Properties.

Variable cfg : Settings.

(** ** Validity of a date *)

Lemma isValidDate_nan : isValidDate cfg NaN = false.
Proof. reflexivity. Qed.

Lemma isValidDate_Fin (q : Q) :
  isValidDate cfg (Fin q) = true
  <-> (Qabs q <= inject_Z (maximumJSTimeValue cfg))%Q.
Proof.
  unfold isValidDate, js_ge, ofZ.
  rewrite andb_true_iff, !js_le_Fin, Qabs_Qle_condition.
  rewrite inject_Z_mult, <- (inject_Z_opp (maximumJSTimeValue cfg)).
  rewrite inject_Z_opp. change (inject_Z (-1)) with (- (1))%Q.
  split; intros [H1 H2]; split; lra.
Qed.

Lemma isValidDate_finite (d : number) :
  isValidDate cfg d = true -> exists q : Q, d = Fin q.
Proof.
  destruct d as [| | |q]; try discriminate; eauto.
Qed.

Lemma isValidDate_ofZ (z : Z) :
  isValidDate cfg (ofZ z) = true
  <-> - maximumJSTimeValue cfg <= z <= maximumJSTimeValue cfg.
Proof.
  unfold isValidDate, js_ge. rewrite andb_true_iff, !js_le_ofZ.
  rewrite !Z.leb_le. lia.
Qed.

(** C9.  A date is valid exactly when its magnitude is at most
    [maximumJSTimeValue]: [isValidDate d] is the comparison
    [|d| <= maximumJSTimeValue], for every number [d] ([NaN] and the
    infinities are invalid, a finite [d] is valid iff [|d|] is at most the
    bound), and, the bound being a non-negative time value, both
    [+maximumJSTimeValue] and [-maximumJSTimeValue] are valid. *)
Theorem isValidDate_abs_bound :
  0 <= maximumJSTimeValue cfg ->
  (forall d : number,
     isValidDate cfg d = js_le (js_abs d) (ofZ (maximumJSTimeValue cfg))) /\
  (forall q : Q,
     isValidDate cfg (Fin q) = true
     <-> (Qabs q <= inject_Z (maximumJSTimeValue cfg))%Q) /\
  isValidDate cfg (ofZ (maximumJSTimeValue cfg)) = true /\
  isValidDate cfg (ofZ (- maximumJSTimeValue cfg)) = true.
Proof.
  intros Hmax. split; [|split; [|split]].
  - intros [| | |q]; try reflexivity.
    apply eq_true_iff_eq. rewrite isValidDate_Fin.
    unfold js_abs, ofZ. now rewrite js_le_Fin.
  - apply isValidDate_Fin.
  - apply isValidDate_ofZ. lia.
  - apply isValidDate_ofZ. lia.
Qed.

(** ** The timing delay *)

(** The timing delay on integer dates, for an interval below 2^53. *)
Lemma badRatingTimingDelayIsOver_ofZ (badRatingDate comparisonDate : Z) :
  Z.abs (minTimeBetweenBadRatings cfg) < 2 ^ 53 ->
  badRatingTimingDelayIsOver cfg (ofZ badRatingDate) (ofZ comparisonDate)
  = (isValidDate cfg (ofZ badRatingDate) && isValidDate cfg (ofZ comparisonDate)
     && (minTimeBetweenBadRatings cfg <=? comparisonDate - badRatingDate)%Z).
Proof.
  intros Hm. unfold badRatingTimingDelayIsOver. simpl isNaN. cbv iota.
  rewrite (js_ge_sub_ofZ _ _ _ Hm).
  destruct (isValidDate cfg (ofZ badRatingDate));
    destruct (isValidDate cfg (ofZ comparisonDate)); reflexivity.
Qed.


(** ** The usage-count window *)

(** C6, as amended.  [clipSuccessDelayIsOver n] is false when [n] is [NaN];
    for every other number it is true iff
    [minClipSuccessForRatingsPrompt <= n <= maxClipSuccessForRatingsPrompt],
    both bounds included: on an integer [z] it holds iff [MIN <= z <= MAX],
    and it is false at [MIN - 1] and at [MAX + 1]. *)
Theorem clipSuccessDelayIsOver_window :
  clipSuccessDelayIsOver cfg NaN = false /\
  (forall n : number, isNaN n = false ->
     clipSuccessDelayIsOver cfg n
       = js_ge n (ofZ (minClipSuccessForRatingsPrompt cfg))
         && js_le n (ofZ (maxClipSuccessForRatingsPrompt cfg))) /\
  (forall q : Q,
     clipSuccessDelayIsOver cfg (Fin q) = true
     <-> (inject_Z (minClipSuccessForRatingsPrompt cfg) <= q)%Q
         /\ (q <= inject_Z (maxClipSuccessForRatingsPrompt cfg))%Q) /\
  (forall z : Z,
     clipSuccessDelayIsOver cfg (ofZ z) = true
     <-> minClipSuccessForRatingsPrompt cfg <= z
           <= maxClipSuccessForRatingsPrompt cfg) /\
  clipSuccessDelayIsOver cfg (ofZ (minClipSuccessForRatingsPrompt cfg - 1)) = false /\
  clipSuccessDelayIsOver cfg (ofZ (maxClipSuccessForRatingsPrompt cfg + 1)) = false.
Proof.
  assert (Hz : forall z : Z,
     clipSuccessDelayIsOver cfg (ofZ z)
       = ((minClipSuccessForRatingsPrompt cfg <=? z)
          && (z <=? maxClipSuccessForRatingsPrompt cfg))%Z).
  { intros z. unfold clipSuccessDelayIsOver, js_ge. simpl isNaN. cbv iota.
    now rewrite !js_le_ofZ. }
  split; [reflexivity|]. split; [|split; [|split; [|split]]].
  - intros n Hn. unfold clipSuccessDelayIsOver. now rewrite Hn.
  - intros q. unfold clipSuccessDelayIsOver, js_ge, ofZ. simpl isNaN. cbv iota.
    now rewrite andb_true_iff, !js_le_Fin.
  - intros z. rewrite Hz, andb_true_iff, !Z.leb_le. lia.
  - rewrite Hz. apply andb_false_intro1. apply Z.leb_gt. lia.
  - rewrite Hz. apply andb_false_intro2. apply Z.leb_gt. lia.
Qed.

(** ** Version strings *)

Arguments parseInt : simpl never.
Arguments roundInteger : simpl never.
Arguments roundDouble : simpl never.
Arguments roundMagnitude : simpl never.

(** [parseInt] fails or returns the rounded value of an integer. *)
Lemma parseInt_rounds (x : option string) :
  parseInt x = NaN \/ exists z : Z, parseInt x = roundInteger z.
Proof.
  unfold parseInt. destruct x as [s|]; [|now left].
  match goal with
  | |- context [let '(_, _) := ?m in _] => destruct m as [sign body]
  end.
  destruct (digits body None) as [z|]; [right; eauto | now left].
Qed.

Lemma parseInt_cases (x : option string) :
  parseInt x = NaN \/ (exists z : Z, parseInt x = ofZ z)
  \/ parseInt x = PosInf \/ parseInt x = NegInf.
Proof.
  destruct (parseInt_rounds x) as [-> | (z & ->)]; [now left | right].
  apply roundInteger_cases.
Qed.

(** On a string that is a decimal integer and nothing else, [parseInt]
    returns the rounded value of that integer. *)
Lemma parseInt_integerValue (s : string) (z : Z) :
  integerValue s = Some z -> parseInt (Some s) = roundInteger z.
Proof.
  unfold integerValue, parseInt. destruct s as [|c r]; [discriminate|].
  destruct c as [[] [] [] [] [] [] [] []]; simpl; intros H;
    try discriminate H;
    (destruct (allDigits r); [|discriminate H]);
    (match type of H with
     | context [digits r ?acc] => destruct (digits r acc) as [v|]
     end; [|discriminate H]);
    simpl in H; injection H as <-; f_equal; lia.
Qed.

Lemma split_nonempty (s : string) : split s <> [].
Proof.
  destruct s as [|c s]; simpl; [discriminate|].
  destruct (Ascii.eqb c "."); [discriminate|].
  destruct (split s); discriminate.
Qed.

(** A version has the correct format exactly when it is a string whose
    split at the dots has three segments, each of which [parseInt] reads as
    a number. *)
Lemma versionHasCorrectFormat_iff (version : option string) :
  versionHasCorrectFormat version = true
  <-> exists v s0 s1 s2 : string,
        version = Some v /\ split v = [s0; s1; s2] /\
        isNaN (parseInt (Some s0)) = false /\
        isNaN (parseInt (Some s1)) = false /\
        isNaN (parseInt (Some s2)) = false.
Proof.
  unfold versionHasCorrectFormat. split.
  - destruct version as [v|]; [|discriminate].
    destruct (split v) as [|s0 [|s1 [|s2 [|s3 rest]]]] eqn:Hs; try discriminate.
    simpl. intros H.
    destruct (isNaN (parseInt (Some s0))) eqn:H0; [discriminate|].
    destruct (isNaN (parseInt (Some s1))) eqn:H1; [discriminate|].
    destruct (isNaN (parseInt (Some s2))) eqn:H2; [discriminate|].
    exists v, s0, s1, s2. repeat split; assumption.
  - intros (v & s0 & s1 & s2 & -> & -> & E0 & E1 & E2).
    simpl. now rewrite E0, E1, E2.
Qed.

(** Major and minor of a string split into three segments. *)
Lemma getVersion_segments (v s0 s1 s2 : string) :
  split v = [s0; s1; s2] ->
  getMajorVersion (Some v) = Some (parseInt (Some s0))
  /\ getMinorVersion (Some v) = Some (parseInt (Some s1)).
Proof.
  intros Hs. unfold getMajorVersion, getMinorVersion. now rewrite Hs.
Qed.

(** On two versions of correct format the version delay compares what
    [parseInt] returns for the first two segments, and nothing else. *)
Lemma badRatingVersionDelayIsOver_segments (bad seen b0 b1 b2 s0 s1 s2 : string) :
  versionHasCorrectFormat (Some bad) = true ->
  versionHasCorrectFormat (Some seen) = true ->
  split bad = [b0; b1; b2] -> split seen = [s0; s1; s2] ->
  badRatingVersionDelayIsOver (Some bad) (Some seen)
  = js_gt (parseInt (Some s0)) (parseInt (Some b0))
    || js_eq (parseInt (Some s0)) (parseInt (Some b0))
       && js_gt (parseInt (Some s1)) (parseInt (Some b1)).
Proof.
  intros Hb Hs Eb Es. unfold badRatingVersionDelayIsOver.
  rewrite Hb, Hs.
  destruct (getVersion_segments _ _ _ _ Eb) as (-> & ->).
  destruct (getVersion_segments _ _ _ _ Es) as (-> & ->).
  simpl isNullOrUndefined. cbv iota.
  unfold gt_value, strict_eq_value, toNumber. simpl negb. simpl orb. cbv iota.
  destruct (js_gt (parseInt (Some s0)) (parseInt (Some b0))); [reflexivity|].
  now destruct (js_eq (parseInt (Some s0)) (parseInt (Some b0))
                && js_gt (parseInt (Some s1)) (parseInt (Some b1))).
Qed.

Lemma integerSegments_inv (v : string) (major minor patch : Z) :
  integerSegments v = Some (major, minor, patch) ->
  exists s0 s1 s2 : string,
    split v = [s0; s1; s2] /\ integerValue s0 = Some major /\
    integerValue s1 = Some minor /\ integerValue s2 = Some patch.
Proof.
  unfold integerSegments.
  destruct (split v) as [|s0 [|s1 [|s2 [|s3 rest]]]]; try discriminate.
  destruct (integerValue s0) as [a|] eqn:E0; [|discriminate].
  destruct (integerValue s1) as [b|] eqn:E1; [|discriminate].
  destruct (integerValue s2) as [c|] eqn:E2; [|discriminate].
  intros [= <- <- <-]. exists s0, s1, s2. repeat split; assumption.
Qed.

(** A string of three decimal integers separated by dots has the correct
    format. *)
Lemma integerSegments_format (v : string) (major minor patch : Z) :
  integerSegments v = Some (major, minor, patch) ->
  versionHasCorrectFormat (Some v) = true.
Proof.
  intros H. destruct (integerSegments_inv _ _ _ _ H) as (s0 & s1 & s2 & Hs & E0 & E1 & E2).
  apply versionHasCorrectFormat_iff. exists v, s0, s1, s2.
  rewrite (parseInt_integerValue _ _ E0), (parseInt_integerValue _ _ E1),
    (parseInt_integerValue _ _ E2), !roundInteger_not_nan. auto.
Qed.

(** C10, as amended.  On a version that [versionHasCorrectFormat] accepts,
    [getMajorVersion] and [getMinorVersion] do not fall off their ends and do
    not return [NaN]: they return the [parseInt] of the first and of the
    second segment of the split at the dots, which is an integer or an
    infinity; when the segment is a decimal integer of magnitude at most
    2^53, it is that integer. *)
Theorem version_parts_defined (versionNum : option string) :
  versionHasCorrectFormat versionNum = true ->
  exists v s0 s1 s2 : string,
    versionNum = Some v /\ split v = [s0; s1; s2] /\
    getMajorVersion versionNum = Some (parseInt (Some s0)) /\
    getMinorVersion versionNum = Some (parseInt (Some s1)) /\
    isNaN (parseInt (Some s0)) = false /\
    isNaN (parseInt (Some s1)) = false /\
    ((exists major : Z, parseInt (Some s0) = ofZ major)
     \/ parseInt (Some s0) = PosInf \/ parseInt (Some s0) = NegInf) /\
    ((exists minor : Z, parseInt (Some s1) = ofZ minor)
     \/ parseInt (Some s1) = PosInf \/ parseInt (Some s1) = NegInf) /\
    (forall major : Z,
       integerValue s0 = Some major -> Z.abs major <= 2 ^ 53 ->
       getMajorVersion versionNum = Some (ofZ major)) /\
    (forall minor : Z,
       integerValue s1 = Some minor -> Z.abs minor <= 2 ^ 53 ->
       getMinorVersion versionNum = Some (ofZ minor)).
Proof.
  intros H. apply versionHasCorrectFormat_iff in H.
  destruct H as (v & s0 & s1 & s2 & -> & Hs & N0 & N1 & _).
  destruct (getVersion_segments _ _ _ _ Hs) as (Hmajor & Hminor).
  exists v, s0, s1, s2. repeat (split; [assumption || reflexivity|]).
  split; [|split; [|split]].
  - destruct (parseInt_cases (Some s0)) as [E | E]; [|exact E].
    rewrite E in N0. discriminate N0.
  - destruct (parseInt_cases (Some s1)) as [E | E]; [|exact E].
    rewrite E in N1. discriminate N1.
  - intros major E Hb. rewrite Hmajor, (parseInt_integerValue _ _ E).
    now rewrite roundInteger_exact.
  - intros minor E Hb. rewrite Hminor, (parseInt_integerValue _ _ E).
    now rewrite roundInteger_exact.
Qed.

(** C4, as amended.  [badRatingVersionDelayIsOver] is true when the bad
    rating version is absent; otherwise it is false when either version
    fails [versionHasCorrectFormat], that is, when either is not a string
    that splits at the dots into exactly three segments each read by
    [parseInt] as a number; otherwise it is true iff the major of the last
    seen version is greater than the major of the bad rating version, or the
    majors are equal and the minor of the last seen version is the greater,
    major and minor being the binary64 numbers that [parseInt] returns for the
    first two segments.  On versions made of three decimal integers of
    magnitude at most 2^53 these are the integers themselves.  Versions of
    correct format that agree on their first two segments give the same
    answer: the patch segment does not count. *)
Theorem badRatingVersionDelayIsOver_cases :
  (forall lastSeenVersion : option string,
     badRatingVersionDelayIsOver None lastSeenVersion = true) /\
  (forall (badRatingVersion : string) (lastSeenVersion : option string),
     versionHasCorrectFormat (Some badRatingVersion) = false
     \/ versionHasCorrectFormat lastSeenVersion = false ->
     badRatingVersionDelayIsOver (Some badRatingVersion) lastSeenVersion = false) /\
  (forall version : option string,
     versionHasCorrectFormat version = true
     <-> exists v s0 s1 s2 : string,
           version = Some v /\ split v = [s0; s1; s2] /\
           isNaN (parseInt (Some s0)) = false /\
           isNaN (parseInt (Some s1)) = false /\
           isNaN (parseInt (Some s2)) = false) /\
  (forall bad seen b0 b1 b2 s0 s1 s2 : string,
     versionHasCorrectFormat (Some bad) = true ->
     versionHasCorrectFormat (Some seen) = true ->
     split bad = [b0; b1; b2] -> split seen = [s0; s1; s2] ->
     getMajorVersion (Some bad) = Some (parseInt (Some b0)) /\
     getMinorVersion (Some bad) = Some (parseInt (Some b1)) /\
     getMajorVersion (Some seen) = Some (parseInt (Some s0)) /\
     getMinorVersion (Some seen) = Some (parseInt (Some s1)) /\
     badRatingVersionDelayIsOver (Some bad) (Some seen)
     = js_gt (parseInt (Some s0)) (parseInt (Some b0))
       || js_eq (parseInt (Some s0)) (parseInt (Some b0))
          && js_gt (parseInt (Some s1)) (parseInt (Some b1))) /\
  (forall (bad seen : string) (badMajor badMinor badPatch : Z)
          (seenMajor seenMinor seenPatch : Z),
     integerSegments bad = Some (badMajor, badMinor, badPatch) ->
     integerSegments seen = Some (seenMajor, seenMinor, seenPatch) ->
     Z.abs badMajor <= 2 ^ 53 -> Z.abs badMinor <= 2 ^ 53 ->
     Z.abs seenMajor <= 2 ^ 53 -> Z.abs seenMinor <= 2 ^ 53 ->
     (badRatingVersionDelayIsOver (Some bad) (Some seen) = true
      <-> seenMajor > badMajor \/ (seenMajor = badMajor /\ seenMinor > badMinor))) /\
  (forall bad bad' seen seen' : string,
     versionHasCorrectFormat (Some bad) = true ->
     versionHasCorrectFormat (Some bad') = true ->
     versionHasCorrectFormat (Some seen) = true ->
     versionHasCorrectFormat (Some seen') = true ->
     split bad !! 0%nat = split bad' !! 0%nat ->
     split bad !! 1%nat = split bad' !! 1%nat ->
     split seen !! 0%nat = split seen' !! 0%nat ->
     split seen !! 1%nat = split seen' !! 1%nat ->
     badRatingVersionDelayIsOver (Some bad) (Some seen)
     = badRatingVersionDelayIsOver (Some bad') (Some seen')).
Proof.
  split; [reflexivity|].
  split; [|split; [exact versionHasCorrectFormat_iff|split; [|split]]].
  - intros b l H. unfold badRatingVersionDelayIsOver. simpl isNullOrUndefined.
    cbv iota. destruct H as [-> | ->]; [now rewrite orb_true_r | reflexivity].
  - intros bad seen b0 b1 b2 s0 s1 s2 Hb Hs Eb Es.
    destruct (getVersion_segments _ _ _ _ Eb) as (H1 & H2).
    destruct (getVersion_segments _ _ _ _ Es) as (H3 & H4).
    repeat (split; [assumption|]).
    now apply (badRatingVersionDelayIsOver_segments bad seen b0 b1 b2 s0 s1 s2).
  - intros bad seen bM bm bp sM sm sp Hb Hs B1 B2 B3 B4.
    pose proof (integerSegments_format _ _ _ _ Hb) as Fb.
    pose proof (integerSegments_format _ _ _ _ Hs) as Fs.
    destruct (integerSegments_inv _ _ _ _ Hb) as (b0 & b1 & b2 & Eb & Vb0 & Vb1 & _).
    destruct (integerSegments_inv _ _ _ _ Hs) as (s0 & s1 & s2 & Es & Vs0 & Vs1 & _).
    rewrite (badRatingVersionDelayIsOver_segments _ _ _ _ _ _ _ _ Fb Fs Eb Es).
    rewrite (parseInt_integerValue _ _ Vb0), (parseInt_integerValue _ _ Vb1),
      (parseInt_integerValue _ _ Vs0), (parseInt_integerValue _ _ Vs1).
    rewrite !roundInteger_exact by assumption.
    rewrite !js_gt_ofZ, js_eq_ofZ.
    rewrite orb_true_iff, andb_true_iff, !Z.ltb_lt, Z.eqb_eq. lia.
  - intros b b' l l' Hb Hb' Hl Hl' B0 B1 L0 L1.
    destruct (proj1 (versionHasCorrectFormat_iff _) Hb)
      as (? & b0 & b1 & b2 & [= <-] & Eb & _).
    destruct (proj1 (versionHasCorrectFormat_iff _) Hb')
      as (? & b0' & b1' & b2' & [= <-] & Eb' & _).
    destruct (proj1 (versionHasCorrectFormat_iff _) Hl)
      as (? & l0 & l1 & l2 & [= <-] & El & _).
    destruct (proj1 (versionHasCorrectFormat_iff _) Hl')
      as (? & l0' & l1' & l2' & [= <-] & El' & _).
    rewrite (badRatingVersionDelayIsOver_segments _ _ _ _ _ _ _ _ Hb Hl Eb El).
    rewrite (badRatingVersionDelayIsOver_segments _ _ _ _ _ _ _ _ Hb' Hl' Eb' El').
    rewrite Eb, Eb' in B0, B1. rewrite El, El' in L0, L1.
    injection B0 as ->. injection B1 as ->. injection L0 as ->. injection L1 as ->.
    reflexivity.
Qed.

End Properties.
(** ** Case-insensitive comparison with "true" *)

Lemma toLowerCaseChar_t (c : ascii) :
  toLowerCaseChar c = "t"%char <-> c = "t"%char \/ c = "T"%char.
Proof.
  split; [|intros [-> | ->]; reflexivity].
  destruct c as [[] [] [] [] [] [] [] []]; intros H; vm_compute in H;
    try discriminate H; auto.
Qed.

Lemma toLowerCaseChar_r (c : ascii) :
  toLowerCaseChar c = "r"%char <-> c = "r"%char \/ c = "R"%char.
Proof.
  split; [|intros [-> | ->]; reflexivity].
  destruct c as [[] [] [] [] [] [] [] []]; intros H; vm_compute in H;
    try discriminate H; auto.
Qed.

Lemma toLowerCaseChar_u (c : ascii) :
  toLowerCaseChar c = "u"%char <-> c = "u"%char \/ c = "U"%char.
Proof.
  split; [|intros [-> | ->]; reflexivity].
  destruct c as [[] [] [] [] [] [] [] []]; intros H; vm_compute in H;
    try discriminate H; auto.
Qed.

Lemma toLowerCaseChar_e (c : ascii) :
  toLowerCaseChar c = "e"%char <-> c = "e"%char \/ c = "E"%char.
Proof.
  split; [|intros [-> | ->]; reflexivity].
  destruct c as [[] [] [] [] [] [] [] []]; intros H; vm_compute in H;
    try discriminate H; auto.
Qed.

(** [s.toLowerCase() === "true"] holds exactly for the sixteen spellings of
    "true" in upper and lower case. *)
Lemma toLowerCase_true_iff (s : string) :
  toLowerCase s = "true"
  <-> exists c1 c2 c3 c4 : ascii,
        s = String c1 (String c2 (String c3 (String c4 EmptyString))) /\
        (c1 = "t" \/ c1 = "T")%char /\ (c2 = "r" \/ c2 = "R")%char /\
        (c3 = "u" \/ c3 = "U")%char /\ (c4 = "e" \/ c4 = "E")%char.
Proof.
  split.
  - destruct s as [|c1 [|c2 [|c3 [|c4 [|c5 s]]]]]; try discriminate.
    simpl. intros H. injection H as H1 H2 H3 H4.
    exists c1, c2, c3, c4. split; [reflexivity|].
    now rewrite <- toLowerCaseChar_t, <- toLowerCaseChar_r,
                <- toLowerCaseChar_u, <- toLowerCaseChar_e.
  - intros (c1 & c2 & c3 & c4 & -> & H1 & H2 & H3 & H4). simpl.
    apply toLowerCaseChar_t in H1. apply toLowerCaseChar_r in H2.
    apply toLowerCaseChar_u in H3. apply toLowerCaseChar_e in H4.
    now rewrite H1, H2, H3, H4.
Qed.

(** ** The evaluation and the recorder *)

Section Evaluation.

Variable cfg : Settings.
Context {ClientType : Type}.
Variable name : ClientType -> string.

Ltac unfold_run :=
  cbv beta iota zeta delta
    [shouldShowRatingsPrompt shouldShowRatingsPromptInternal
     ratingsPromptEnabledForClient setLastBadRating
     bind ret SmartValue_get getCachedValue setValue getSetting Date_now logEvent
     cachedDecision fst snd negb
     storage settings smartValues clock storageReads storageWrites logged] in *.

(** The setting decides alone whether the prompt is enabled for a client,
    and looking it up changes nothing. *)
Lemma ratingsPromptEnabledForClient_run (clientType : ClientType) (w : World) :
  ratingsPromptEnabledForClient name clientType w
  = (match settings w !! (name clientType ++ "_RatingsEnabled") with
     | Some s => String.eqb (toLowerCase s) "true"
     | None => false
     end, w).
Proof. reflexivity. Qed.

Lemma ratingsPromptEnabledForClient_false (clientType : ClientType) (w : World) :
  fst (ratingsPromptEnabledForClient name clientType w) = false
  <-> settings w !! (name clientType ++ "_RatingsEnabled") = None
      \/ exists s : string,
           settings w !! (name clientType ++ "_RatingsEnabled") = Some s
           /\ toLowerCase s <> "true".
Proof.
  rewrite ratingsPromptEnabledForClient_run. simpl fst.
  destruct (settings w !! (name clientType ++ "_RatingsEnabled")) as [s|].
  - rewrite String.eqb_neq. split.
    + intros H. right. eauto.
    + intros [H | (s' & H & Hs)]; [discriminate | congruence].
  - split; auto.
Qed.

(** The event that an evaluation hands to the logger when the session is
    absent. *)
Lemma shouldShowRatingsPrompt_absent (w : World) :
  shouldShowRatingsPrompt cfg name None w
  = (false,
     snd (logEvent
            (mkEvent ShouldShowRatingsPrompt Failed
               (Some "Clipper state is null or undefined")
               (<["RatingsInfo" := PJson ∅]>
                  (<["ShouldShowRatingsPrompt" := PBool false]> ∅))) w)).
Proof. reflexivity. Qed.

(** An evaluation on a session that holds a decision. *)
Lemma shouldShowRatingsPrompt_cached (clipperState : ClipperState ClientType)
    (w : World) (decision : bool) :
  cachedDecision clipperState w = Some decision ->
  shouldShowRatingsPrompt cfg name (Some clipperState) w
  = (decision,
     snd (logEvent
            (mkEvent ShouldShowRatingsPrompt Succeeded None
               (<["RatingsInfo" := PJson (<["usedCachedValue" := VBool true]> ∅)]>
                  (<["ShouldShowRatingsPrompt" := PBool decision]> ∅))) w)).
Proof.
  destruct w as [st se sv cl rd wr lg]. unfold_run. intros H.
  now rewrite H.
Qed.

(** An evaluation on a session without a decision, for a client for which
    the prompt is not enabled. *)
Lemma shouldShowRatingsPrompt_disabled (clipperState : ClipperState ClientType)
    (w : World) :
  cachedDecision clipperState w = None ->
  fst (ratingsPromptEnabledForClient name (clipperType (clientInfo clipperState)) w)
    = false ->
  shouldShowRatingsPrompt cfg name (Some clipperState) w
  = (false,
     snd (logEvent
            (mkEvent ShouldShowRatingsPrompt Succeeded None
               (<["RatingsInfo" :=
                    PJson (<["ratingsPromptEnabledForClient" := VBool false]> ∅)]>
                  (<["ShouldShowRatingsPrompt" := PBool false]> ∅))) w)).
Proof.
  destruct w as [st se sv cl rd wr lg]. unfold_run. intros H He.
  rewrite H. unfold_run. now rewrite He.
Qed.

(** An evaluation on a session without a decision, for a client for which
    the prompt is enabled: the five stored values are read, in the order of
    the source, and the decision is computed from them. *)
Lemma shouldShowRatingsPrompt_enabled (clipperState : ClipperState ClientType)
    (w : World) :
  cachedDecision clipperState w = None ->
  fst (ratingsPromptEnabledForClient name (clipperType (clientInfo clipperState)) w)
    = true ->
  let w' := snd (shouldShowRatingsPrompt cfg name (Some clipperState) w) in
  fst (shouldShowRatingsPrompt cfg name (Some clipperState) w)
  = (if match storage w !! StorageKeys.doNotPromptRatings with
        | Some s => String.eqb (toLowerCase s) "true"
        | None => false
        end
     then false
     else badRatingTimingDelayIsOver cfg
            (parseInt (storage w !! StorageKeys.lastBadRatingDate)) (ofZ (clock w))
          && badRatingVersionDelayIsOver
               (storage w !! StorageKeys.lastBadRatingVersion)
               (storage w !! StorageKeys.lastSeenVersion)
          && clipSuccessDelayIsOver cfg
               (parseInt (storage w !! StorageKeys.numSuccessfulClips))) /\
  storageReads w'
  = (storageReads w ++
      [StorageKeys.doNotPromptRatings; StorageKeys.lastBadRatingDate;
       StorageKeys.lastBadRatingVersion; StorageKeys.lastSeenVersion;
       StorageKeys.numSuccessfulClips])%list /\
  smartValues w' = smartValues w /\
  exists e : LogEvent, logged w' = (logged w ++ [e])%list.
Proof.
  destruct w as [st se sv cl rd wr lg]. unfold_run.
  intros H He. rewrite H. unfold_run. rewrite He. unfold_run.
  destruct (match st !! StorageKeys.doNotPromptRatings with
            | Some s => String.eqb (toLowerCase s) "true"
            | None => false
            end).
  - unfold_run. rewrite <- !app_assoc. repeat split; eauto.
  - unfold_run.
    destruct (badRatingTimingDelayIsOver cfg _ _ && badRatingVersionDelayIsOver _ _
              && clipSuccessDelayIsOver cfg _);
      unfold_run; rewrite <- !app_assoc; repeat split; eauto.
Qed.

(** No evaluation writes to a cell, to the storage or to the settings. *)
Lemma shouldShowRatingsPrompt_frame (clipperState : option (ClipperState ClientType))
    (w : World) :
  let w' := snd (shouldShowRatingsPrompt cfg name clipperState w) in
  smartValues w' = smartValues w /\ storage w' = storage w /\
  settings w' = settings w /\ storageWrites w' = storageWrites w.
Proof.
  destruct clipperState as [cs|]; [|now rewrite shouldShowRatingsPrompt_absent].
  destruct (cachedDecision cs w) as [b|] eqn:Hc.
  { now rewrite (shouldShowRatingsPrompt_cached _ _ _ Hc). }
  destruct (fst (ratingsPromptEnabledForClient name (clipperType (clientInfo cs)) w))
    eqn:He.
  2: { now rewrite (shouldShowRatingsPrompt_disabled _ _ Hc He). }
  clear. destruct w as [st se sv cl rd wr lg]. unfold_run.
  destruct (sv !! _); unfold_run; [easy|].
  destruct (match se !! _ with Some _ => _ | None => _ end); unfold_run; [|easy].
  destruct (match st !! _ with Some _ => _ | None => _ end); unfold_run; [easy|].
  destruct (badRatingTimingDelayIsOver cfg _ _ && badRatingVersionDelayIsOver _ _
            && clipSuccessDelayIsOver cfg _); unfold_run; easy.
Qed.

(** C1, as amended.  An evaluation never writes the session's cached
    decision: after the call every cell, and so the cached decision of the
    session, is as before the call (a session without a decision still has
    none; storing the returned decision is left to the caller).  On a session
    that already holds a decision the call returns that decision and reads
    nothing from the storage. *)
Theorem shouldShowRatingsPrompt_cache (clipperState : ClipperState ClientType)
    (w : World) :
  let result := fst (shouldShowRatingsPrompt cfg name (Some clipperState) w) in
  let w' := snd (shouldShowRatingsPrompt cfg name (Some clipperState) w) in
  smartValues w' = smartValues w /\
  cachedDecision clipperState w' = cachedDecision clipperState w /\
  (forall decision : bool,
     cachedDecision clipperState w = Some decision ->
     result = decision /\ storageReads w' = storageReads w).
Proof.
  intros result w'.
  destruct (shouldShowRatingsPrompt_frame (Some clipperState) w) as (Hsv & _).
  fold w' in Hsv. split; [exact Hsv|]. split.
  - unfold cachedDecision. now rewrite Hsv.
  - intros decision Hc. subst result w'.
    now rewrite (shouldShowRatingsPrompt_cached _ _ _ Hc).
Qed.

(** C2.  On a present session without a cached decision, for a client for
    which the prompt is enabled: when the stored do-not-prompt flag, put in
    lower case, is "true", the result is false whatever else is stored;
    otherwise the result is true iff the timing delay, the version delay and
    the usage-count delay, evaluated on the stored values and the current
    time, are all over. *)
Theorem shouldShowRatingsPrompt_decision (clipperState : ClipperState ClientType)
    (w : World) :
  cachedDecision clipperState w = None ->
  fst (ratingsPromptEnabledForClient name (clipperType (clientInfo clipperState)) w)
    = true ->
  let result := fst (shouldShowRatingsPrompt cfg name (Some clipperState) w) in
  let doNotPrompt :=
    exists flag : string,
      storage w !! StorageKeys.doNotPromptRatings = Some flag
      /\ toLowerCase flag = "true" in
  (doNotPrompt -> result = false) /\
  (~ doNotPrompt ->
   (result = true
    <-> badRatingTimingDelayIsOver cfg
          (parseInt (storage w !! StorageKeys.lastBadRatingDate)) (ofZ (clock w))
        = true
        /\ badRatingVersionDelayIsOver
             (storage w !! StorageKeys.lastBadRatingVersion)
             (storage w !! StorageKeys.lastSeenVersion) = true
        /\ clipSuccessDelayIsOver cfg
             (parseInt (storage w !! StorageKeys.numSuccessfulClips)) = true)).
Proof.
  intros Hc He result doNotPrompt.
  destruct (shouldShowRatingsPrompt_enabled _ _ Hc He) as (Hr & _).
  fold result in Hr. rewrite Hr. subst doNotPrompt. split.
  - intros (flag & -> & Hflag). apply String.eqb_eq in Hflag. now rewrite Hflag.
  - intros Hno.
    destruct (storage w !! StorageKeys.doNotPromptRatings) as [flag|] eqn:Hs.
    + destruct (String.eqb (toLowerCase flag) "true") eqn:Hflag.
      * exfalso. apply Hno. exists flag. split; [reflexivity|].
        now apply String.eqb_eq.
      * rewrite !andb_true_iff. tauto.
    + rewrite !andb_true_iff. tauto.
Qed.

(** C7, as amended.  When the setting for the session's client resolves to
    false (it is absent, or its value in lower case is not "true"), an
    evaluation on a present session reads no stored value at all, whether or
    not the session holds a decision, and on a session without a cached
    decision it returns false. *)
Theorem shouldShowRatingsPrompt_disabled_client (clipperState : ClipperState ClientType)
    (w : World) :
  (settings w !! (name (clipperType (clientInfo clipperState)) ++ "_RatingsEnabled")
   = None
   \/ exists s : string,
        settings w !! (name (clipperType (clientInfo clipperState)) ++ "_RatingsEnabled")
        = Some s
        /\ toLowerCase s <> "true") ->
  let result := fst (shouldShowRatingsPrompt cfg name (Some clipperState) w) in
  let w' := snd (shouldShowRatingsPrompt cfg name (Some clipperState) w) in
  fst (ratingsPromptEnabledForClient name (clipperType (clientInfo clipperState)) w)
    = false /\
  storageReads w' = storageReads w /\
  (cachedDecision clipperState w = None -> result = false).
Proof.
  intros Hs result w'. apply ratingsPromptEnabledForClient_false in Hs.
  split; [exact Hs|]. subst result w'.
  destruct (cachedDecision clipperState w) as [b|] eqn:Hc.
  - rewrite (shouldShowRatingsPrompt_cached _ _ _ Hc). split; [reflexivity|discriminate].
  - now rewrite (shouldShowRatingsPrompt_disabled _ _ Hc Hs).
Qed.

(** C8, as amended.  On an absent session an evaluation returns false and
    hands the logger one event, of status [Failed], whose failure info
    carries the error "Clipper state is null or undefined"; nothing is read
    from or written to the storage.  The call is a total function of the
    world: it returns, nothing is thrown. *)
Theorem shouldShowRatingsPrompt_absent_session (w : World) :
  let result := fst (shouldShowRatingsPrompt cfg name None w) in
  let w' := snd (shouldShowRatingsPrompt cfg name None w) in
  result = false /\
  (exists e : LogEvent,
     logged w' = (logged w ++ [e])%list /\
     label e = ShouldShowRatingsPrompt /\ status e = Failed /\
     failureInfo e = Some "Clipper state is null or undefined" /\
     customProperties e !! "ShouldShowRatingsPrompt" = Some (PBool false)) /\
  storage w' = storage w /\ storageReads w' = storageReads w /\
  storageWrites w' = storageWrites w /\ smartValues w' = smartValues w.
Proof.
  intros result w'. subst result w'. rewrite shouldShowRatingsPrompt_absent.
  split; [reflexivity|]. split; [|easy].
  eexists. split; [reflexivity|]. repeat split.
Qed.

(** ** The recorder of bad ratings *)

(** C3.  When the parsed date fails [isValidDate], or the version fails
    [versionHasCorrectFormat], [setLastBadRating] returns true and leaves the
    world as it is: nothing is written.  Otherwise it returns true iff a
    [lastBadRatingDate] was stored before and its parse is a valid date, and
    it writes the new date and the new version under the keys
    [lastBadRatingDate] and [lastBadRatingVersion], whatever was there. *)
Theorem setLastBadRating_cases (dateString versionString : string) (w : World) :
  let result := fst (setLastBadRating cfg dateString versionString w) in
  let w' := snd (setLastBadRating cfg dateString versionString w) in
  (isValidDate cfg (parseInt (Some dateString)) = false
   \/ versionHasCorrectFormat (Some versionString) = false ->
   result = true /\ w' = w) /\
  (isValidDate cfg (parseInt (Some dateString)) = true ->
   versionHasCorrectFormat (Some versionString) = true ->
   (result = true
    <-> exists previous : string,
          storage w !! StorageKeys.lastBadRatingDate = Some previous
          /\ isValidDate cfg (parseInt (Some previous)) = true) /\
   storageWrites w'
   = (storageWrites w ++
       [(StorageKeys.lastBadRatingDate, dateString);
        (StorageKeys.lastBadRatingVersion, versionString)])%list /\
   storage w'
   = <[StorageKeys.lastBadRatingVersion := versionString]>
       (<[StorageKeys.lastBadRatingDate := dateString]> (storage w)) /\
   storage w' !! StorageKeys.lastBadRatingDate = Some dateString /\
   storage w' !! StorageKeys.lastBadRatingVersion = Some versionString).
Proof.
  intros result w'. subst result w'.
  destruct w as [st se sv cl rd wr lg]. unfold_run. split.
  - intros [-> | Hv]; [now unfold_run|].
    destruct (isValidDate cfg (parseInt (Some dateString))); unfold_run;
      [|easy]. now rewrite Hv.
  - intros -> ->. unfold_run. rewrite <- app_assoc.
    split; [|split; [reflexivity|split; [reflexivity|split]]].
    + destruct (st !! StorageKeys.lastBadRatingDate) as [previous|] eqn:Hp.
      * destruct (isValidDate cfg (parseInt (Some previous))) eqn:Hvalid.
        -- destruct (isNaN (parseInt (Some previous))) eqn:Hnan.
           ++ destruct (parseInt (Some previous)); discriminate.
           ++ split; [eauto | reflexivity].
        -- rewrite andb_false_r. split; [discriminate|].
           intros (p & [= <-] & Hp'). congruence.
      * split; [discriminate|]. intros (p & Hp' & _). discriminate.
    + rewrite lookup_insert_ne by discriminate. apply lookup_insert_eq.
    + apply lookup_insert_eq.
Qed.

End Evaluation.

(** * The properties on the example data *)

(** [parseInt] on whole and partial integers, and beyond 2^53, where the
    result is the nearest binary64 value. *)
Example parseInt_examples :
  parseInt (Some "42") = ofZ 42 /\ parseInt (Some "  -7px") = ofZ (-7) /\
  parseInt (Some "") = NaN /\ parseInt (Some "x1") = NaN /\
  parseInt (Some "0x10") = ofZ 0 /\ parseInt None = NaN /\
  parseInt (Some "9007199254740993") = ofZ 9007199254740992 /\
  parseInt (Some "9007199254740995") = ofZ 9007199254740996 /\
  parseInt (Some (String "1" (zeros 309))) = PosInf.
Proof. repeat split; vm_compute; reflexivity. Qed.

(** The examples of the specification for the version delay. *)
Example badRatingVersionDelayIsOver_examples :
  badRatingVersionDelayIsOver (Some "1.2.0") (Some "2.0.0") = true /\
  badRatingVersionDelayIsOver (Some "1.2.0") (Some "1.3.0") = true /\
  badRatingVersionDelayIsOver (Some "1.2.0") (Some "1.2.9") = false /\
  badRatingVersionDelayIsOver (Some "2.0") (Some "3.0.0") = false /\
  badRatingVersionDelayIsOver None (Some "3.0.0") = true.
Proof. repeat split; reflexivity. Qed.

(** [parseInt] reads the leading integer of a segment and ignores what
    follows it, so a version with a suffix has the correct format. *)
Example versionHasCorrectFormat_suffix :
  versionHasCorrectFormat (Some "3.1.0-beta") = true /\
  versionHasCorrectFormat (Some "3.x.0") = false /\
  versionHasCorrectFormat (Some "3.1") = false /\
  versionHasCorrectFormat (Some "3.1.0.") = false.
Proof. repeat split; reflexivity. Qed.

(** The end-to-end example of the specification: enabled, no flag, no bad
    rating, five clips in a window of 3 to 10. *)
Example shouldShowRatingsPrompt_fresh :
  fst (shouldShowRatingsPrompt exampleSettings ExampleClient_name
         (Some exampleSession) freshWorld) = true.
Proof. vm_compute. reflexivity. Qed.

Example setLastBadRating_examples :
  fst (setLastBadRating exampleSettings "not-a-number" "1.0.0" ratedWorld) = true /\
  snd (setLastBadRating exampleSettings "not-a-number" "1.0.0" ratedWorld) = ratedWorld /\
  fst (setLastBadRating exampleSettings "2000" "1.0" ratedWorld) = true /\
  snd (setLastBadRating exampleSettings "2000" "1.0" ratedWorld) = ratedWorld /\
  fst (setLastBadRating exampleSettings "2000" "1.0.0" emptyWorld) = false.
Proof. repeat split; reflexivity. Qed.

Lemma isValidDate_abs_bound_witness :
  0 <= maximumJSTimeValue exampleSettings /\
  isValidDate exampleSettings (ofZ 8640000000000000) = true /\
  isValidDate exampleSettings (ofZ (- 8640000000000000)) = true.
Proof.
  assert (H : 0 <= maximumJSTimeValue exampleSettings) by (simpl; lia).
  split; [exact H|].
  exact (proj2 (proj2 (isValidDate_abs_bound exampleSettings H))).
Defined.


(** The subtraction rounds as binary64 does: the exact difference of these
    two dates is below the interval of 6048000000, the binary64 difference
    is the interval itself, and the delay is over. *)
Example badRatingTimingDelayIsOver_rounds :
  ((12096000001 # 2) - (5000000001 # 10000000000) < 6048000000)%Q /\
  js_sub (Fin (12096000001 # 2)) (Fin (5000000001 # 10000000000))
  = Fin (inject_Z 6048000000 * inject_Z (2 ^ 1074) / inject_Z (2 ^ 1074)) /\
  badRatingTimingDelayIsOver exampleSettings
    (Fin (5000000001 # 10000000000)) (Fin (12096000001 # 2)) = true.
Proof. split; [reflexivity|]. split; vm_compute; reflexivity. Qed.

(** Beyond 2^53 the rounded difference can reach the interval although the
    exact difference is below it. *)
Example badRatingTimingDelayIsOver_large_interval :
  2 ^ 53 + 3 - 0 < 2 ^ 53 + 4 /\
  badRatingTimingDelayIsOver (mkSettings (2 ^ 54) (2 ^ 53 + 4) 3 10)
    (ofZ 0) (ofZ (2 ^ 53 + 3)) = true.
Proof. split; [lia | vm_compute; reflexivity]. Qed.

Lemma clipSuccessDelayIsOver_window_witness :
  isNaN (Fin (9 # 2)) = false /\
  clipSuccessDelayIsOver exampleSettings (Fin (9 # 2))
  = js_ge (Fin (9 # 2)) (ofZ 3) && js_le (Fin (9 # 2)) (ofZ 10).
Proof.
  split; [reflexivity|].
  apply (proj1 (proj2 (clipSuccessDelayIsOver_window exampleSettings))).
  reflexivity.
Defined.

(** C6 as stated fails at four and a half clips: the number is not a valid
    non-negative integer, it is not [NaN] and it lies in the window of 3 to
    10, so the answer is true. *)
Lemma clipSuccessDelayIsOver_counterexample :
  isNonNegativeInteger (Fin (9 # 2)) = false /\
  clipSuccessDelayIsOver exampleSettings (Fin (9 # 2)) <> false.
Proof. split; [reflexivity | discriminate]. Qed.

Lemma version_parts_defined_witness :
  versionHasCorrectFormat (Some "3.1.0") = true /\
  exists v s0 s1 s2 : string,
    Some "3.1.0" = Some v /\ split v = [s0; s1; s2] /\
    getMajorVersion (Some "3.1.0") = Some (parseInt (Some s0)) /\
    getMinorVersion (Some "3.1.0") = Some (parseInt (Some s1)) /\
    isNaN (parseInt (Some s0)) = false /\
    isNaN (parseInt (Some s1)) = false.
Proof.
  split; [reflexivity|].
  destruct (version_parts_defined (Some "3.1.0") eq_refl)
    as (v & s0 & s1 & s2 & H1 & H2 & H3 & H4 & H5 & H6 & _).
  exists v, s0, s1, s2. repeat split; assumption.
Defined.

(** C10 as stated fails on a version whose major has 310 digits: the
    format is correct and the major is an infinity, not an integer. *)
Lemma version_parts_defined_counterexample :
  versionHasCorrectFormat (Some hugeVersion) = true /\
  getMajorVersion (Some hugeVersion) = Some PosInf /\
  ~ (exists major : Z, getMajorVersion (Some hugeVersion) = Some (ofZ major)).
Proof.
  assert (H : getMajorVersion (Some hugeVersion) = Some PosInf)
    by (vm_compute; reflexivity).
  split; [vm_compute; reflexivity|]. split; [exact H|].
  intros (major & E). rewrite H in E. discriminate E.
Qed.

Lemma badRatingVersionDelayIsOver_cases_witness :
  (versionHasCorrectFormat (Some "2.0") = false /\
   badRatingVersionDelayIsOver (Some "2.0") (Some "3.0.0") = false) /\
  (integerSegments "1.2.0" = Some (1, 2, 0) /\
   integerSegments "1.3.7" = Some (1, 3, 7) /\
   (badRatingVersionDelayIsOver (Some "1.2.0") (Some "1.3.7") = true
    <-> 1 > 1 \/ (1 = 1 /\ 3 > 2))) /\
  (versionHasCorrectFormat (Some "1.2.0") = true /\
   versionHasCorrectFormat (Some "1.2.9") = true /\
   badRatingVersionDelayIsOver (Some "1.2.0") (Some "1.3.7")
   = badRatingVersionDelayIsOver (Some "1.2.9") (Some "1.3.0")).
Proof.
  pose proof badRatingVersionDelayIsOver_cases
    as (_ & Hinvalid & _ & _ & Hintegers & Hpatch).
  split; [|split].
  - split; [reflexivity|]. apply Hinvalid. left. reflexivity.
  - split; [reflexivity|]. split; [reflexivity|].
    apply (Hintegers "1.2.0" "1.3.7" 1 2 0 1 3 7);
      try reflexivity; vm_compute; discriminate.
  - split; [reflexivity|]. split; [reflexivity|]. apply Hpatch; reflexivity.
Defined.

(** C4 as stated fails twice.  A version with a suffix is not made of three
    integer segments, yet it has the correct format for the code and the
    delay is over.  And beyond 2^53 the majors that the code compares are
    rounded: the last seen major is the greater integer, yet the delay is
    not over. *)
Lemma badRatingVersionDelayIsOver_cases_counterexample :
  (integerSegments "3.1.0-beta" = None /\
   badRatingVersionDelayIsOver (Some "3.1.0-beta") (Some "3.2.0") <> false) /\
  (integerSegments "9007199254740992.0.0" = Some (9007199254740992, 0, 0) /\
   integerSegments "9007199254740993.0.0" = Some (9007199254740993, 0, 0) /\
   9007199254740993 > 9007199254740992 /\
   badRatingVersionDelayIsOver (Some "9007199254740992.0.0")
     (Some "9007199254740993.0.0") <> true).
Proof.
  split.
  - split; [reflexivity|]. vm_compute. discriminate.
  - split; [reflexivity|]. split; [reflexivity|]. split; [lia|].
    vm_compute. discriminate.
Qed.

Lemma shouldShowRatingsPrompt_cache_witness :
  cachedDecision exampleSession cachedWorld = Some true /\
  fst (shouldShowRatingsPrompt exampleSettings ExampleClient_name
         (Some exampleSession) cachedWorld) = true /\
  storageReads (snd (shouldShowRatingsPrompt exampleSettings ExampleClient_name
                       (Some exampleSession) cachedWorld)) = storageReads cachedWorld.
Proof.
  assert (H : cachedDecision exampleSession cachedWorld = Some true)
    by (vm_compute; reflexivity).
  split; [exact H|].
  exact (proj2 (proj2 (shouldShowRatingsPrompt_cache exampleSettings
                         ExampleClient_name exampleSession cachedWorld)) true H).
Defined.

(** C1 as stated fails on a session at its start: the call decides [true]
    and the session still holds no decision afterwards. *)
Lemma shouldShowRatingsPrompt_cache_counterexample :
  cachedDecision exampleSession freshWorld = None /\
  fst (shouldShowRatingsPrompt exampleSettings ExampleClient_name
         (Some exampleSession) freshWorld) = true /\
  cachedDecision exampleSession
    (snd (shouldShowRatingsPrompt exampleSettings ExampleClient_name
            (Some exampleSession) freshWorld))
  <> Some true.
Proof. vm_compute. repeat split; discriminate. Qed.

Lemma shouldShowRatingsPrompt_decision_witness :
  (cachedDecision exampleSession optedOutWorld = None /\
   fst (ratingsPromptEnabledForClient ExampleClient_name ChromeExtension optedOutWorld)
   = true /\
   fst (shouldShowRatingsPrompt exampleSettings ExampleClient_name
          (Some exampleSession) optedOutWorld) = false) /\
  (cachedDecision exampleSession freshWorld = None /\
   fst (ratingsPromptEnabledForClient ExampleClient_name ChromeExtension freshWorld)
   = true /\
   storage freshWorld !! StorageKeys.doNotPromptRatings = None /\
   fst (shouldShowRatingsPrompt exampleSettings ExampleClient_name
          (Some exampleSession) freshWorld) = true).
Proof.
  assert (Hc : cachedDecision exampleSession optedOutWorld = None)
    by (vm_compute; reflexivity).
  assert (He : fst (ratingsPromptEnabledForClient ExampleClient_name
                      (clipperType (clientInfo exampleSession)) optedOutWorld) = true)
    by (vm_compute; reflexivity).
  assert (Hc' : cachedDecision exampleSession freshWorld = None)
    by (vm_compute; reflexivity).
  assert (He' : fst (ratingsPromptEnabledForClient ExampleClient_name
                       (clipperType (clientInfo exampleSession)) freshWorld) = true)
    by (vm_compute; reflexivity).
  assert (Hs : storage freshWorld !! StorageKeys.doNotPromptRatings = None)
    by (vm_compute; reflexivity).
  split.
  - split; [exact Hc|]. split; [exact He|].
    apply (proj1 (shouldShowRatingsPrompt_decision exampleSettings ExampleClient_name
                    exampleSession optedOutWorld Hc He)).
    exists "TRUE". split; vm_compute; reflexivity.
  - split; [exact Hc'|]. split; [exact He'|]. split; [exact Hs|].
    apply (proj2 (shouldShowRatingsPrompt_decision exampleSettings ExampleClient_name
                    exampleSession freshWorld Hc' He')).
    + intros (flag & Hflag & _). rewrite Hs in Hflag. discriminate Hflag.
    + repeat split; vm_compute; reflexivity.
Defined.

Lemma shouldShowRatingsPrompt_disabled_client_witness :
  settings emptyWorld !! (ExampleClient_name ChromeExtension ++ "_RatingsEnabled") = None /\
  cachedDecision exampleSession emptyWorld = None /\
  fst (shouldShowRatingsPrompt exampleSettings ExampleClient_name
         (Some exampleSession) emptyWorld) = false /\
  storageReads (snd (shouldShowRatingsPrompt exampleSettings ExampleClient_name
                       (Some exampleSession) emptyWorld)) = [].
Proof.
  assert (Hs : settings emptyWorld
               !! (ExampleClient_name (clipperType (clientInfo exampleSession))
                   ++ "_RatingsEnabled") = None)
    by (vm_compute; reflexivity).
  assert (Hc : cachedDecision exampleSession emptyWorld = None)
    by (vm_compute; reflexivity).
  split; [exact Hs|]. split; [exact Hc|].
  destruct (shouldShowRatingsPrompt_disabled_client exampleSettings ExampleClient_name
              exampleSession emptyWorld (or_introl Hs)) as (_ & Hreads & Hresult).
  split; [exact (Hresult Hc) | exact Hreads].
Defined.

(** C7 as stated fails on a session that holds the decision [true]: the
    setting is absent, and the call returns the cached [true]. *)
Lemma shouldShowRatingsPrompt_disabled_client_counterexample :
  fst (ratingsPromptEnabledForClient ExampleClient_name
         (clipperType (clientInfo exampleSession)) cachedWorld) = false /\
  fst (shouldShowRatingsPrompt exampleSettings ExampleClient_name
         (Some exampleSession) cachedWorld) <> false.
Proof. vm_compute. split; [reflexivity | discriminate]. Qed.

(** C8 as stated fails on the message: no logged event carries "session
    state is missing"; the one event logged carries another text. *)
Lemma shouldShowRatingsPrompt_absent_session_counterexample :
  map failureInfo
    (logged (snd (shouldShowRatingsPrompt exampleSettings ExampleClient_name
                    None emptyWorld)))
  = [Some "Clipper state is null or undefined"] /\
  ~ (exists e : LogEvent,
       In e (logged (snd (shouldShowRatingsPrompt exampleSettings ExampleClient_name
                            None emptyWorld)))
       /\ failureInfo e = Some "session state is missing").
Proof.
  rewrite shouldShowRatingsPrompt_absent. split; [reflexivity|].
  intros (e & [<- | []] & H). discriminate H.
Qed.

Lemma setLastBadRating_cases_witness :
  (isValidDate exampleSettings (parseInt (Some "not-a-number")) = false /\
   fst (setLastBadRating exampleSettings "not-a-number" "1.0.0" ratedWorld) = true /\
   snd (setLastBadRating exampleSettings "not-a-number" "1.0.0" ratedWorld)
   = ratedWorld) /\
  (isValidDate exampleSettings (parseInt (Some "2000")) = true /\
   versionHasCorrectFormat (Some "3.1.0") = true /\
   storageWrites (snd (setLastBadRating exampleSettings "2000" "3.1.0" ratedWorld))
   = [("lastBadRatingDate", "2000"); ("lastBadRatingVersion", "3.1.0")]).
Proof.
  pose proof (setLastBadRating_cases exampleSettings "not-a-number" "1.0.0" ratedWorld)
    as (Hinvalid & _).
  pose proof (setLastBadRating_cases exampleSettings "2000" "3.1.0" ratedWorld)
    as (_ & Hvalid).
  split.
  - split; [reflexivity|]. apply Hinvalid. left. reflexivity.
  - split; [reflexivity|]. split; [reflexivity|].
    exact (proj1 (proj2 (Hvalid eq_refl eq_refl))).
Defined.

(** * Further properties *)

(** ** The order on versions *)

Lemma badRatingVersionDelayIsOver_formats (badRatingVersion : string)
    (lastSeenVersion : option string) :
  badRatingVersionDelayIsOver (Some badRatingVersion) lastSeenVersion = true ->
  versionHasCorrectFormat (Some badRatingVersion) = true
  /\ versionHasCorrectFormat lastSeenVersion = true.
Proof.
  unfold badRatingVersionDelayIsOver. simpl isNullOrUndefined. cbv iota.
  destruct (versionHasCorrectFormat lastSeenVersion);
    destruct (versionHasCorrectFormat (Some badRatingVersion));
    simpl; auto; discriminate.
Qed.

Lemma js_gt_Fin (x y : Q) : js_gt (Fin x) (Fin y) = true <-> (y < x)%Q.
Proof.
  cbn [js_gt]. rewrite negb_true_iff, <- not_true_iff_false, Qle_bool_iff.
  split; [apply Qnot_le_lt | apply Qlt_not_le].
Qed.

Lemma js_eq_Fin (x y : Q) : js_eq (Fin x) (Fin y) = true <-> x == y.
Proof. apply Qeq_bool_iff. Qed.

Lemma js_gt_irrefl (x : number) : js_gt x x = false.
Proof.
  destruct x as [| | |q]; try reflexivity.
  apply not_true_iff_false. rewrite js_gt_Fin. apply Qlt_irrefl.
Qed.

Lemma js_gt_trans (x y z : number) :
  js_gt x y = true -> js_gt y z = true -> js_gt x z = true.
Proof.
  destruct x as [| | |a], y as [| | |b], z as [| | |c];
    try discriminate; try reflexivity.
  rewrite !js_gt_Fin. intros H1 H2. eapply Qlt_trans; eassumption.
Qed.

Lemma js_gt_asym (x y : number) : js_gt x y = true -> js_gt y x = false.
Proof.
  destruct x as [| | |a], y as [| | |b]; try discriminate; try reflexivity.
  intros H. apply not_true_iff_false. rewrite js_gt_Fin in *.
  intros H'. apply (Qlt_irrefl a). eapply Qlt_trans; eassumption.
Qed.

Lemma js_gt_not_eq (x y : number) : js_gt x y = true -> js_eq x y = false.
Proof.
  destruct x as [| | |a], y as [| | |b]; try discriminate; try reflexivity.
  intros H. apply not_true_iff_false. rewrite js_gt_Fin in H. rewrite js_eq_Fin.
  intros E. rewrite E in H. exact (Qlt_irrefl _ H).
Qed.

Lemma js_eq_sym (x y : number) : js_eq x y = js_eq y x.
Proof.
  destruct x as [| | |a], y as [| | |b]; try reflexivity.
  apply eq_true_iff_eq. rewrite !js_eq_Fin. split; intros H; now symmetry.
Qed.

Lemma js_eq_trans (x y z : number) :
  js_eq x y = true -> js_eq y z = true -> js_eq x z = true.
Proof.
  destruct x as [| | |a], y as [| | |b], z as [| | |c];
    try discriminate; try reflexivity.
  rewrite !js_eq_Fin. intros H1 H2. now rewrite H1.
Qed.

Lemma js_gt_eq_l (x y z : number) : js_eq x y = true -> js_gt x z = js_gt y z.
Proof.
  destruct x as [| | |a], y as [| | |b], z as [| | |c];
    try discriminate; try reflexivity.
  rewrite js_eq_Fin. intros E. apply eq_true_iff_eq. rewrite !js_gt_Fin.
  now rewrite E.
Qed.

Lemma js_gt_eq_r (x y z : number) : js_eq y z = true -> js_gt x y = js_gt x z.
Proof.
  destruct x as [| | |a], y as [| | |b], z as [| | |c];
    try discriminate; try reflexivity.
  rewrite js_eq_Fin. intros E. apply eq_true_iff_eq. rewrite !js_gt_Fin.
  now rewrite E.
Qed.

(** The comparison of (major, minor) pairs that the version delay makes. *)
Lemma ahead_irrefl (M m : number) :
  js_gt M M || js_eq M M && js_gt m m = false.
Proof. now rewrite !js_gt_irrefl, andb_false_r. Qed.

Lemma ahead_asym (A a B b : number) :
  js_gt B A || js_eq B A && js_gt b a = true ->
  js_gt A B || js_eq A B && js_gt a b = false.
Proof.
  intros H. apply orb_true_iff in H. destruct H as [H | H].
  - rewrite (js_gt_asym _ _ H), (js_eq_sym A B), (js_gt_not_eq _ _ H). reflexivity.
  - apply andb_true_iff in H. destruct H as [E G].
    rewrite (js_gt_asym _ _ G), andb_false_r, orb_false_r.
    destruct (js_gt A B) eqn:C; [|reflexivity].
    apply js_gt_not_eq in C. rewrite js_eq_sym in C. congruence.
Qed.

Lemma ahead_trans (A a B b C c : number) :
  js_gt B A || js_eq B A && js_gt b a = true ->
  js_gt C B || js_eq C B && js_gt c b = true ->
  js_gt C A || js_eq C A && js_gt c a = true.
Proof.
  intros H1 H2. apply orb_true_iff in H1, H2. apply orb_true_iff.
  destruct H1 as [H1 | H1], H2 as [H2 | H2].
  - left. eapply js_gt_trans; eassumption.
  - apply andb_true_iff in H2. destruct H2 as [E G].
    left. now rewrite (js_gt_eq_l _ _ _ E).
  - apply andb_true_iff in H1. destruct H1 as [E G].
    left. now rewrite <- (js_gt_eq_r _ _ _ E).
  - apply andb_true_iff in H1, H2. destruct H1 as [E1 G1], H2 as [E2 G2].
    right. apply andb_true_iff. split.
    + eapply js_eq_trans; eassumption.
    + eapply js_gt_trans; eassumption.
Qed.

(** The segments of a version of correct format. *)
Lemma versionHasCorrectFormat_split (v : string) :
  versionHasCorrectFormat (Some v) = true ->
  exists s0 s1 s2 : string, split v = [s0; s1; s2].
Proof.
  intros H. apply versionHasCorrectFormat_iff in H.
  destruct H as (? & s0 & s1 & s2 & [= <-] & Hs & _). eauto.
Qed.

Lemma badRatingVersionDelayIsOver_same (version : string) :
  badRatingVersionDelayIsOver (Some version) (Some version) = false.
Proof.
  destruct (versionHasCorrectFormat (Some version)) eqn:Hv.
  - destruct (versionHasCorrectFormat_split _ Hv) as (s0 & s1 & s2 & Hs).
    rewrite (badRatingVersionDelayIsOver_segments _ _ _ _ _ _ _ _ Hv Hv Hs Hs).
    apply ahead_irrefl.
  - unfold badRatingVersionDelayIsOver. simpl isNullOrUndefined. cbv iota.
    now rewrite Hv.
Qed.

(** X1.  The version delay is a strict order on versions: no version is
    ahead of itself, two versions are never ahead of each other, and being
    ahead carries over a version in between. *)
Theorem badRatingVersionDelayIsOver_strict_order :
  (forall v : string, badRatingVersionDelayIsOver (Some v) (Some v) = false) /\
  (forall a b : string,
     badRatingVersionDelayIsOver (Some a) (Some b) = true ->
     badRatingVersionDelayIsOver (Some b) (Some a) = false) /\
  (forall a b c : string,
     badRatingVersionDelayIsOver (Some a) (Some b) = true ->
     badRatingVersionDelayIsOver (Some b) (Some c) = true ->
     badRatingVersionDelayIsOver (Some a) (Some c) = true).
Proof.
  split; [exact badRatingVersionDelayIsOver_same|]. split.
  - intros a b Hab.
    destruct (badRatingVersionDelayIsOver_formats _ _ Hab) as (Ha & Hb).
    destruct (versionHasCorrectFormat_split _ Ha) as (a0 & a1 & a2 & Ea).
    destruct (versionHasCorrectFormat_split _ Hb) as (b0 & b1 & b2 & Eb).
    rewrite (badRatingVersionDelayIsOver_segments _ _ _ _ _ _ _ _ Ha Hb Ea Eb) in Hab.
    rewrite (badRatingVersionDelayIsOver_segments _ _ _ _ _ _ _ _ Hb Ha Eb Ea).
    now apply ahead_asym.
  - intros a b c Hab Hbc.
    destruct (badRatingVersionDelayIsOver_formats _ _ Hab) as (Ha & Hb).
    destruct (badRatingVersionDelayIsOver_formats _ _ Hbc) as (_ & Hc).
    destruct (versionHasCorrectFormat_split _ Ha) as (a0 & a1 & a2 & Ea).
    destruct (versionHasCorrectFormat_split _ Hb) as (b0 & b1 & b2 & Eb).
    destruct (versionHasCorrectFormat_split _ Hc) as (c0 & c1 & c2 & Ec).
    rewrite (badRatingVersionDelayIsOver_segments _ _ _ _ _ _ _ _ Ha Hb Ea Eb) in Hab.
    rewrite (badRatingVersionDelayIsOver_segments _ _ _ _ _ _ _ _ Hb Hc Eb Ec) in Hbc.
    rewrite (badRatingVersionDelayIsOver_segments _ _ _ _ _ _ _ _ Ha Hc Ea Ec).
    eapply ahead_trans; eassumption.
Qed.

(** ** The shape of a version of correct format *)

Lemma split_cons (s : string) : exists seg rest, split s = seg :: rest.
Proof.
  destruct (split s) as [|seg rest] eqn:E; [|eauto].
  now destruct (split_nonempty s).
Qed.

Lemma split_no_dot (s : string) : hasDot s = false -> split s = [s].
Proof.
  induction s as [|c s IH]; [reflexivity|]. simpl.
  destruct (Ascii.eqb c "."); [discriminate|]. simpl. intros H.
  now rewrite (IH H).
Qed.

Lemma split_app_dot (a b : string) :
  hasDot a = false -> split (a ++ String "." b) = a :: split b.
Proof.
  induction a as [|c a IH]; [reflexivity|]. simpl.
  destruct (Ascii.eqb c "."); [discriminate|]. simpl. intros H.
  now rewrite (IH H).
Qed.

Lemma split_head (s seg : string) (rest : list string) :
  split s = seg :: rest ->
  hasDot seg = false /\
  match rest with
  | [] => s = seg
  | _ => exists s', s = seg ++ String "." s' /\ split s' = rest
  end.
Proof.
  revert seg rest. induction s as [|c s IH]; intros seg rest.
  - simpl. intros [= <- <-]. auto.
  - simpl. destruct (Ascii.eqb c ".") eqn:Ec.
    + intros [= <- <-]. split; [reflexivity|].
      apply Ascii.eqb_eq in Ec. subst c.
      destruct (split_cons s) as (x & r & E). rewrite E.
      exists s. split; [reflexivity | exact E].
    + destruct (split_cons s) as (x & r & E). rewrite E.
      intros [= <- <-]. destruct (IH _ _ E) as (Hx & Hr).
      split; [simpl; now rewrite Ec|].
      destruct r as [|y r].
      * now subst s.
      * destruct Hr as (s' & -> & Hs'). exists s'. split; [reflexivity | exact Hs'].
Qed.

(** X2.  A version has the correct format exactly when it is made of three
    parts without dots, joined by two dots, each part beginning, after white
    space and a sign if any, with a decimal digit. *)
Theorem versionHasCorrectFormat_shape (v : string) :
  versionHasCorrectFormat (Some v) = true
  <-> exists s0 s1 s2 : string,
        v = s0 ++ String "." (s1 ++ String "." s2) /\
        hasDot s0 = false /\ hasDot s1 = false /\ hasDot s2 = false /\
        isNaN (parseInt (Some s0)) = false /\
        isNaN (parseInt (Some s1)) = false /\
        isNaN (parseInt (Some s2)) = false.
Proof.
  rewrite versionHasCorrectFormat_iff. split.
  - intros (v' & s0 & s1 & s2 & [= <-] & Hs & E0 & E1 & E2).
    exists s0, s1, s2.
    destruct (split_head _ _ _ Hs) as (H0 & s' & -> & Hs').
    destruct (split_head _ _ _ Hs') as (H1 & s'' & -> & Hs'').
    destruct (split_head _ _ _ Hs'') as (H2 & ->).
    repeat split; assumption.
  - intros (s0 & s1 & s2 & -> & H0 & H1 & H2 & N0 & N1 & N2).
    exists (s0 ++ String "." (s1 ++ String "." s2)), s0, s1, s2.
    split; [reflexivity|]. split; [|auto].
    now rewrite (split_app_dot _ _ H0), (split_app_dot _ _ H1), (split_no_dot _ H2).
Qed.

(** ** The delays as time and usage go on *)

Section Delays.

Variable cfg : Settings.

(** X3.  Once the timing delay is over it stays over: if it is over at one
    comparison date, it is over at every later comparison date that is a
    valid date.  And with a positive interval it is not over at the date of
    the bad rating itself. *)
Theorem badRatingTimingDelayIsOver_later :
  (forall badRatingDate comparisonDate laterDate : number,
     badRatingTimingDelayIsOver cfg badRatingDate comparisonDate = true ->
     js_le comparisonDate laterDate = true ->
     isValidDate cfg laterDate = true ->
     badRatingTimingDelayIsOver cfg badRatingDate laterDate = true) /\
  (forall badRatingDate : number,
     0 < minTimeBetweenBadRatings cfg ->
     isNaN badRatingDate = false ->
     badRatingTimingDelayIsOver cfg badRatingDate badRatingDate = false).
Proof.
  split.
  - intros b c c' H Hle Hv. unfold badRatingTimingDelayIsOver in *.
    destruct (isNaN b); [reflexivity|].
    destruct (isValidDate cfg b) eqn:Hb; [|discriminate].
    destruct (isValidDate cfg c) eqn:Hc; [|discriminate].
    rewrite Hv.
    destruct (isValidDate_finite cfg _ Hb) as [x ->].
    destruct (isValidDate_finite cfg _ Hc) as [y ->].
    destruct (isValidDate_finite cfg _ Hv) as [z ->].
    cbn [negb orb js_sub] in *. unfold js_ge in *.
    eapply js_le_trans; [exact H|].
    apply roundDouble_mono. apply js_le_Fin in Hle.
    unfold Qminus. now apply Qplus_le_compat; [|apply Qle_refl].
  - intros b Hmin Hn. unfold badRatingTimingDelayIsOver. rewrite Hn.
    destruct (isValidDate cfg b) eqn:Hb; [|reflexivity].
    destruct (isValidDate_finite cfg _ Hb) as [x ->]. cbn [negb orb js_sub].
    unfold js_ge, ofZ.
    destruct (roundDouble_integer 0 ltac:(vm_compute; discriminate))
      as (q0 & E0 & H0).
    apply js_le_below with (y := q0).
    + rewrite <- E0. apply roundDouble_mono.
      assert (E : x - x == inject_Z 0) by (unfold inject_Z; ring).
      rewrite E. apply Qle_refl.
    + rewrite H0, <- Zlt_Qlt. exact Hmin.
Qed.

(** X4.  When the configured window is empty (the maximum is below the
    minimum), the usage-count delay is never over. *)
Theorem clipSuccessDelayIsOver_empty_window (numClips : number) :
  maxClipSuccessForRatingsPrompt cfg < minClipSuccessForRatingsPrompt cfg ->
  clipSuccessDelayIsOver cfg numClips = false.
Proof.
  intros Hw. unfold clipSuccessDelayIsOver, js_ge.
  destruct numClips as [| | |q]; try reflexivity.
  simpl isNaN. cbv iota. apply not_true_iff_false.
  unfold ofZ. rewrite andb_true_iff, !js_le_Fin. intros [H1 H2].
  rewrite Zlt_Qlt in Hw. lra.
Qed.

End Delays.

(** ** The names of the settings *)

Lemma lastChar_app (a s : string) :
  s <> EmptyString -> lastChar (a ++ s) = lastChar s.
Proof.
  intros Hs. induction a as [|c a IH]; [reflexivity|].
  change (String c a ++ s) with (String c (a ++ s)).
  simpl. rewrite IH. destruct (a ++ s) eqn:E; [|reflexivity].
  destruct a as [|c' a].
  - change (s = EmptyString) in E. contradiction.
  - change (String c' (a ++ s) = EmptyString) in E. discriminate E.
Qed.

Section SettingNames.

Context {ClientType : Type}.
Variable name : ClientType -> string.

Lemma setting_names_differ (clientType clientType' : ClientType) :
  getRateUrlSettingNameForClient name clientType'
  <> getRatingsPromptEnabledSettingNameForClient name clientType.
Proof.
  unfold getRateUrlSettingNameForClient, getRatingsPromptEnabledSettingNameForClient,
    combineClientTypeAndSuffix. intros H.
  apply (f_equal lastChar) in H.
  rewrite !lastChar_app in H by discriminate. discriminate H.
Qed.

(** X5.  The two settings of the clients never share a name: storing a rate
    URL for any client makes [getRateUrlIfExists] return it for that client
    and leaves [ratingsPromptEnabledForClient] as it was for every client. *)
Theorem rate_url_setting_independent (clientType clientType' : ClientType)
    (url : string) (w : World) :
  let w' := withSetting (getRateUrlSettingNameForClient name clientType') url w in
  fst (getRateUrlIfExists name clientType' w') = Some url /\
  fst (ratingsPromptEnabledForClient name clientType w')
  = fst (ratingsPromptEnabledForClient name clientType w).
Proof.
  intros w'. subst w'. split.
  - unfold getRateUrlIfExists, getSetting, withSetting. simpl.
    apply lookup_insert_eq.
  - unfold ratingsPromptEnabledForClient, bind, ret, getSetting, withSetting. simpl.
    rewrite lookup_insert_ne by apply setting_names_differ. reflexivity.
Qed.

End SettingNames.

(** ** How the operations compose *)

Section Composition.

Variable cfg : Settings.
Context {ClientType : Type}.
Variable name : ClientType -> string.

Ltac run_steps :=
  cbv beta iota zeta delta
    [shouldShowRatingsPrompt shouldShowRatingsPromptInternal
     ratingsPromptEnabledForClient setLastBadRating setDoNotPromptStatus
     bind ret SmartValue_get getCachedValue setValue getSetting Date_now logEvent
     cachedDecision fst snd negb
     storage settings smartValues clock storageReads storageWrites logged] in *.

(** Whether the stored do-not-prompt flag says "true". *)
Lemma doNotPrompt_flag (w : World) :
  match storage w !! StorageKeys.doNotPromptRatings with
  | Some s => String.eqb (toLowerCase s) "true"
  | None => false
  end = true
  <-> exists flag : string,
        storage w !! StorageKeys.doNotPromptRatings = Some flag
        /\ toLowerCase flag = "true".
Proof.
  destruct (storage w !! StorageKeys.doNotPromptRatings) as [s|].
  - rewrite String.eqb_eq. split; [eauto|]. now intros (flag & [= <-] & H).
  - split; [discriminate|]. now intros (flag & H & _).
Qed.

(** The result of an evaluation on a session without a cached decision. *)
Lemma shouldShowRatingsPrompt_uncached (clipperState : ClipperState ClientType)
    (w : World) :
  cachedDecision clipperState w = None ->
  fst (shouldShowRatingsPrompt cfg name (Some clipperState) w)
  = fst (ratingsPromptEnabledForClient name (clipperType (clientInfo clipperState)) w)
    && negb match storage w !! StorageKeys.doNotPromptRatings with
            | Some s => String.eqb (toLowerCase s) "true"
            | None => false
            end
    && (badRatingTimingDelayIsOver cfg
          (parseInt (storage w !! StorageKeys.lastBadRatingDate)) (ofZ (clock w))
        && badRatingVersionDelayIsOver
             (storage w !! StorageKeys.lastBadRatingVersion)
             (storage w !! StorageKeys.lastSeenVersion)
        && clipSuccessDelayIsOver cfg
             (parseInt (storage w !! StorageKeys.numSuccessfulClips))).
Proof.
  intros Hc.
  destruct (fst (ratingsPromptEnabledForClient name
                   (clipperType (clientInfo clipperState)) w)) eqn:He.
  - destruct (shouldShowRatingsPrompt_enabled cfg name _ _ Hc He) as (-> & _).
    now destruct (match storage w !! StorageKeys.doNotPromptRatings with
                  | Some s => String.eqb (toLowerCase s) "true"
                  | None => false
                  end).
  - now rewrite (shouldShowRatingsPrompt_disabled cfg name _ _ Hc He).
Qed.

(** What [setLastBadRating] does on a valid date and version. *)
Lemma setLastBadRating_valid (dateString versionString : string) (w : World) :
  isValidDate cfg (parseInt (Some dateString)) = true ->
  versionHasCorrectFormat (Some versionString) = true ->
  setLastBadRating cfg dateString versionString w
  = (isValidDate cfg (parseInt (storage w !! StorageKeys.lastBadRatingDate)),
     mkWorld
       (<[StorageKeys.lastBadRatingVersion := versionString]>
          (<[StorageKeys.lastBadRatingDate := dateString]> (storage w)))
       (settings w) (smartValues w) (clock w)
       (storageReads w ++ [StorageKeys.lastBadRatingDate])%list
       ((storageWrites w ++ [(StorageKeys.lastBadRatingDate, dateString)])
          ++ [(StorageKeys.lastBadRatingVersion, versionString)])%list
       (logged w)).
Proof.
  intros Hd Hv. destruct w as [st se sv cl rd wr lg]. run_steps.
  rewrite Hd, Hv. run_steps. f_equal.
  destruct (parseInt (st !! StorageKeys.lastBadRatingDate)) eqn:E;
    try reflexivity.
  simpl. now destruct (isValidDate cfg (Fin q)).
Qed.

(** What it does otherwise: nothing. *)
Lemma setLastBadRating_invalid (dateString versionString : string) (w : World) :
  isValidDate cfg (parseInt (Some dateString)) = false
  \/ versionHasCorrectFormat (Some versionString) = false ->
  setLastBadRating cfg dateString versionString w = (true, w).
Proof.
  intros H. unfold setLastBadRating.
  destruct (isValidDate cfg (parseInt (Some dateString))); cbn [negb].
  - destruct H as [H | ->]; [discriminate | reflexivity].
  - reflexivity.
Qed.

(** X6.  After [setDoNotPromptStatus], an evaluation on a session without a
    cached decision returns false, whatever the settings, the time and the
    other stored values. *)
Theorem setDoNotPromptStatus_suppresses (clipperState : ClipperState ClientType)
    (w : World) :
  cachedDecision clipperState w = None ->
  fst (shouldShowRatingsPrompt cfg name (Some clipperState)
         (snd (setDoNotPromptStatus w))) = false.
Proof.
  intros Hc. rewrite shouldShowRatingsPrompt_uncached by exact Hc.
  replace (storage (snd (setDoNotPromptStatus w)) !! StorageKeys.doNotPromptRatings)
    with (Some "true") by (symmetry; apply lookup_insert_eq).
  cbn [toLowerCase]. change (String.eqb _ "true") with true. cbn [negb].
  now rewrite andb_false_r.
Qed.

(** X7.  [setDoNotPromptStatus] stores "true" under [doNotPromptRatings] and
    touches no other key; it hands the logger one event, labelled
    [SetDoNotPromptRatings]; a second call leaves the storage as the first
    left it. *)
Theorem setDoNotPromptStatus_effect (w : World) :
  let w' := snd (setDoNotPromptStatus w) in
  storage w' !! StorageKeys.doNotPromptRatings = Some "true" /\
  (forall key : string,
     key <> StorageKeys.doNotPromptRatings -> storage w' !! key = storage w !! key) /\
  storageWrites w' = (storageWrites w ++ [(StorageKeys.doNotPromptRatings, "true")])%list /\
  logged w' = (logged w ++ [newEvent SetDoNotPromptRatings])%list /\
  storage (snd (setDoNotPromptStatus w')) = storage w'.
Proof.
  intros w'. subst w'. split; [apply lookup_insert_eq|]. split; [|split; [|split]].
  - intros key Hk. apply lookup_insert_ne. congruence.
  - reflexivity.
  - reflexivity.
  - apply insert_insert_eq.
Qed.

(** X8.  After a bad rating has been recorded with a valid date and version,
    recording another one reports that a bad rating had occurred, and the
    storage holds the date and the version of the last call. *)
Theorem setLastBadRating_twice (date1 version1 date2 version2 : string) (w : World) :
  isValidDate cfg (parseInt (Some date1)) = true ->
  versionHasCorrectFormat (Some version1) = true ->
  isValidDate cfg (parseInt (Some date2)) = true ->
  versionHasCorrectFormat (Some version2) = true ->
  let w1 := snd (setLastBadRating cfg date1 version1 w) in
  let second := setLastBadRating cfg date2 version2 w1 in
  fst second = true /\
  storage (snd second) !! StorageKeys.lastBadRatingDate = Some date2 /\
  storage (snd second) !! StorageKeys.lastBadRatingVersion = Some version2.
Proof.
  intros Hd1 Hv1 Hd2 Hv2 w1 second. subst w1 second.
  rewrite (setLastBadRating_valid _ _ (snd _) Hd2 Hv2).
  rewrite (setLastBadRating_valid _ _ w Hd1 Hv1).
  cbn [fst snd storage]. split; [|split].
  - rewrite lookup_insert_ne by discriminate. now rewrite lookup_insert_eq.
  - rewrite lookup_insert_ne by discriminate. apply lookup_insert_eq.
  - apply lookup_insert_eq.
Qed.

(** X9.  [setLastBadRating] leaves every key but [lastBadRatingDate] and
    [lastBadRatingVersion] as it was, whatever its arguments, and touches
    neither the settings, nor the session cells, nor the logger. *)
Theorem setLastBadRating_frame (dateString versionString : string) (w : World) :
  let w' := snd (setLastBadRating cfg dateString versionString w) in
  (forall key : string,
     key <> StorageKeys.lastBadRatingDate ->
     key <> StorageKeys.lastBadRatingVersion ->
     storage w' !! key = storage w !! key) /\
  settings w' = settings w /\ smartValues w' = smartValues w /\
  logged w' = logged w.
Proof.
  intros w'. subst w'.
  destruct (isValidDate cfg (parseInt (Some dateString))) eqn:Hd.
  - destruct (versionHasCorrectFormat (Some versionString)) eqn:Hv.
    + rewrite (setLastBadRating_valid _ _ w Hd Hv). cbn [snd storage].
      split; [|easy]. intros key H1 H2.
      rewrite lookup_insert_ne by congruence. apply lookup_insert_ne. congruence.
    + now rewrite (setLastBadRating_invalid _ _ w (or_intror Hv)).
  - now rewrite (setLastBadRating_invalid _ _ w (or_introl Hd)).
Qed.

(** X10.  After a bad rating has been recorded for the version that the
    user has last seen, an evaluation on a session without a cached decision
    returns false, at any time and with any number of clips. *)
Theorem setLastBadRating_same_version (dateString versionString : string)
    (clipperState : ClipperState ClientType) (w : World) :
  isValidDate cfg (parseInt (Some dateString)) = true ->
  versionHasCorrectFormat (Some versionString) = true ->
  storage w !! StorageKeys.lastSeenVersion = Some versionString ->
  cachedDecision clipperState w = None ->
  fst (shouldShowRatingsPrompt cfg name (Some clipperState)
         (snd (setLastBadRating cfg dateString versionString w))) = false.
Proof.
  intros Hd Hv Hseen Hc. rewrite shouldShowRatingsPrompt_uncached.
  2: { now rewrite (setLastBadRating_valid _ _ w Hd Hv). }
  rewrite (setLastBadRating_valid _ _ w Hd Hv). cbn [snd storage clock].
  rewrite (lookup_insert_eq _ StorageKeys.lastBadRatingVersion).
  rewrite (lookup_insert_ne _ StorageKeys.lastBadRatingVersion
             StorageKeys.lastSeenVersion) by discriminate.
  rewrite (lookup_insert_ne _ StorageKeys.lastBadRatingDate
             StorageKeys.lastSeenVersion) by discriminate.
  rewrite Hseen, badRatingVersionDelayIsOver_same.
  now rewrite andb_false_r, andb_false_l, andb_false_r.
Qed.

(** X11.  After a bad rating has been recorded at an integer date [d], an
    evaluation on a session without a cached decision returns false as long
    as the clock has not reached [d + minTimeBetweenBadRatings], for an
    interval below 2^53 in magnitude (beyond, the rounding of the difference
    of the two dates can reach the interval before the clock does). *)
Theorem setLastBadRating_too_soon (dateString versionString : string) (d : Z)
    (clipperState : ClipperState ClientType) (w : World) :
  Z.abs (minTimeBetweenBadRatings cfg) < 2 ^ 53 ->
  parseInt (Some dateString) = ofZ d ->
  isValidDate cfg (ofZ d) = true ->
  versionHasCorrectFormat (Some versionString) = true ->
  clock w < d + minTimeBetweenBadRatings cfg ->
  cachedDecision clipperState w = None ->
  fst (shouldShowRatingsPrompt cfg name (Some clipperState)
         (snd (setLastBadRating cfg dateString versionString w))) = false.
Proof.
  intros Hm Hp Hd Hv Hclock Hc. rewrite <- Hp in Hd.
  rewrite shouldShowRatingsPrompt_uncached.
  2: { now rewrite (setLastBadRating_valid _ _ w Hd Hv). }
  rewrite (setLastBadRating_valid _ _ w Hd Hv). cbn [snd storage clock].
  rewrite (lookup_insert_ne _ StorageKeys.lastBadRatingVersion
             StorageKeys.lastBadRatingDate) by discriminate.
  rewrite (lookup_insert_eq _ StorageKeys.lastBadRatingDate).
  rewrite Hp, (badRatingTimingDelayIsOver_ofZ cfg _ _ Hm).
  replace (minTimeBetweenBadRatings cfg <=? clock w - d)%Z with false
    by (symmetry; apply Z.leb_gt; lia).
  now rewrite !andb_false_r.
Qed.

(** ** What an evaluation reports and reads *)

(** X12.  Every evaluation, on any session or none, hands the logger exactly
    one event: it is labelled [ShouldShowRatingsPrompt], its property
    [ShouldShowRatingsPrompt] is the returned decision, it carries the
    logging info, and its status is [Failed] exactly when the session is
    absent. *)
Theorem shouldShowRatingsPrompt_one_event
    (clipperState : option (ClipperState ClientType)) (w : World) :
  let result := fst (shouldShowRatingsPrompt cfg name clipperState w) in
  let w' := snd (shouldShowRatingsPrompt cfg name clipperState w) in
  exists (e : LogEvent) (info : RatingsLoggingInfo),
    logged w' = (logged w ++ [e])%list /\
    label e = ShouldShowRatingsPrompt /\
    customProperties e !! "ShouldShowRatingsPrompt" = Some (PBool result) /\
    customProperties e !! "RatingsInfo" = Some (PJson info) /\
    (status e = Failed <-> clipperState = None).
Proof.
  assert (Hp : forall (r : bool) (info : RatingsLoggingInfo) (st : Status)
                      (f : option string),
             let e := mkEvent ShouldShowRatingsPrompt st f
                        (<["RatingsInfo" := PJson info]>
                           (<["ShouldShowRatingsPrompt" := PBool r]> ∅)) in
             customProperties e !! "ShouldShowRatingsPrompt" = Some (PBool r)
             /\ customProperties e !! "RatingsInfo" = Some (PJson info)).
  { intros r info st f e. subst e. cbn [customProperties]. split.
    - rewrite lookup_insert_ne by discriminate. apply lookup_insert_eq.
    - apply lookup_insert_eq. }
  destruct w as [st se sv cl rd wr lg].
  destruct clipperState as [cs|]; run_steps.
  2: { eexists _, _. split; [reflexivity|]. split; [reflexivity|].
       destruct (Hp false ∅ Failed (Some "Clipper state is null or undefined"))
         as (H1 & H2).
       split; [exact H1|]. split; [exact H2|]. easy. }
  destruct (sv !! _) as [b|]; run_steps.
  { eexists _, _. split; [reflexivity|]. split; [reflexivity|].
    destruct (Hp b (<["usedCachedValue" := VBool true]> ∅) Succeeded None)
      as (H1 & H2).
    split; [exact H1|]. split; [exact H2|]. easy. }
  destruct (match se !! _ with Some _ => _ | None => _ end); run_steps.
  2: { eexists _, _. split; [reflexivity|]. split; [reflexivity|].
       split; [apply Hp|]. split; [apply Hp|]. easy. }
  destruct (match st !! _ with Some _ => _ | None => _ end); run_steps.
  { eexists _, _. split; [reflexivity|]. split; [reflexivity|].
    split; [apply Hp|]. split; [apply Hp|]. easy. }
  destruct (badRatingTimingDelayIsOver cfg _ _ && badRatingVersionDelayIsOver _ _
            && clipSuccessDelayIsOver cfg _); run_steps;
    (eexists _, _; split; [reflexivity|]; split; [reflexivity|];
     split; [apply Hp|]; split; [apply Hp|]; easy).
Qed.

(** X13.  Every stored key that an evaluation or [setLastBadRating] reads is
    one of the keys that [preCacheNeededValues] asks the storage to cache,
    and [preCacheNeededValues] asks for nothing that an evaluation reaching
    the stored state does not read. *)
Theorem preCacheNeededValues_covers_reads :
  exists keys : list string,
    (forall preCacheValues : list string -> M unit,
       preCacheNeededValues preCacheValues = preCacheValues keys) /\
    (forall (clipperState : option (ClipperState ClientType)) (w : World),
       exists reads : list string,
         storageReads (snd (shouldShowRatingsPrompt cfg name clipperState w))
         = (storageReads w ++ reads)%list
         /\ (reads = [] \/ reads = keys)) /\
    (forall (dateString versionString : string) (w : World),
       exists reads : list string,
         storageReads (snd (setLastBadRating cfg dateString versionString w))
         = (storageReads w ++ reads)%list
         /\ Forall (fun key => In key keys) reads).
Proof.
  eexists. split; [reflexivity|]. split.
  - intros [cs|] w.
    + destruct (cachedDecision cs w) as [b|] eqn:Hc.
      * exists []. rewrite (shouldShowRatingsPrompt_cached cfg name _ _ _ Hc).
        split; [symmetry; apply app_nil_r | now left].
      * destruct (fst (ratingsPromptEnabledForClient name
                         (clipperType (clientInfo cs)) w)) eqn:He.
        -- destruct (shouldShowRatingsPrompt_enabled cfg name _ _ Hc He)
             as (_ & Hr & _).
           eexists. split; [exact Hr | now right].
        -- exists []. rewrite (shouldShowRatingsPrompt_disabled cfg name _ _ Hc He).
           split; [symmetry; apply app_nil_r | now left].
    + exists []. rewrite shouldShowRatingsPrompt_absent.
      split; [symmetry; apply app_nil_r | now left].
  - intros d v w.
    destruct (isValidDate cfg (parseInt (Some d))) eqn:Hd.
    + destruct (versionHasCorrectFormat (Some v)) eqn:Hv.
      * rewrite (setLastBadRating_valid _ _ w Hd Hv). eexists.
        split; [reflexivity|]. constructor; [|constructor].
        right. left. reflexivity.
      * rewrite (setLastBadRating_invalid _ _ w (or_intror Hv)). exists [].
        split; [symmetry; apply app_nil_r | constructor].
    + rewrite (setLastBadRating_invalid _ _ w (or_introl Hd)). exists [].
      split; [symmetry; apply app_nil_r | constructor].
Qed.

(** X14.  An evaluation on a session without a cached decision returns true
    only if the prompt is enabled for the client, the stored do-not-prompt
    flag does not say "true", and the stored number of clips parses to an
    integer within the configured window. *)
Theorem shouldShowRatingsPrompt_true_only_if (clipperState : ClipperState ClientType)
    (w : World) :
  cachedDecision clipperState w = None ->
  fst (shouldShowRatingsPrompt cfg name (Some clipperState) w) = true ->
  fst (ratingsPromptEnabledForClient name (clipperType (clientInfo clipperState)) w)
    = true /\
  ~ (exists flag : string,
       storage w !! StorageKeys.doNotPromptRatings = Some flag
       /\ toLowerCase flag = "true") /\
  exists numClips : Z,
    parseInt (storage w !! StorageKeys.numSuccessfulClips) = ofZ numClips /\
    minClipSuccessForRatingsPrompt cfg <= numClips
      <= maxClipSuccessForRatingsPrompt cfg.
Proof.
  intros Hc. rewrite shouldShowRatingsPrompt_uncached by exact Hc.
  rewrite !andb_true_iff, negb_true_iff.
  intros ((He & Hflag) & (_ & _) & Hclips). split; [exact He|]. split.
  - rewrite <- doNotPrompt_flag. now rewrite Hflag.
  - destruct (parseInt_cases (storage w !! StorageKeys.numSuccessfulClips))
      as [E | [(z & E) | [E | E]]]; rewrite E in Hclips; try discriminate Hclips.
    exists z. split; [exact E|].
    unfold clipSuccessDelayIsOver, js_ge in Hclips. simpl isNaN in Hclips.
    cbv iota in Hclips. rewrite !js_le_ofZ, andb_true_iff, !Z.leb_le in Hclips.
    exact Hclips.
Qed.

(** X15.  For a user who never gave a bad rating (no date and no version of
    a bad rating are stored), with the prompt enabled and no do-not-prompt
    flag saying "true", an evaluation on a session without a cached decision
    is decided by the number of clips alone. *)
Theorem shouldShowRatingsPrompt_first_time (clipperState : ClipperState ClientType)
    (w : World) :
  cachedDecision clipperState w = None ->
  fst (ratingsPromptEnabledForClient name (clipperType (clientInfo clipperState)) w)
    = true ->
  (forall flag : string,
     storage w !! StorageKeys.doNotPromptRatings = Some flag ->
     toLowerCase flag <> "true") ->
  storage w !! StorageKeys.lastBadRatingDate = None ->
  storage w !! StorageKeys.lastBadRatingVersion = None ->
  fst (shouldShowRatingsPrompt cfg name (Some clipperState) w)
  = clipSuccessDelayIsOver cfg
      (parseInt (storage w !! StorageKeys.numSuccessfulClips)).
Proof.
  intros Hc He Hflag Hdate Hversion.
  rewrite shouldShowRatingsPrompt_uncached by exact Hc.
  rewrite He, Hdate, Hversion.
  replace (match storage w !! StorageKeys.doNotPromptRatings with
           | Some s => String.eqb (toLowerCase s) "true"
           | None => false
           end) with false.
  - reflexivity.
  - symmetry. apply not_true_iff_false. rewrite doNotPrompt_flag.
    intros (flag & Hs & Ht). exact (Hflag flag Hs Ht).
Qed.

(** X16.  When an evaluation reaches the three delays (session without a
    cached decision, prompt enabled, no flag saying "true"), the logging
    info of its event records the outcome of each of the three, whether or
    not an earlier one already decided the result, and the parsed number of
    clips. *)
Theorem shouldShowRatingsPrompt_records_delays (clipperState : ClipperState ClientType)
    (w : World) :
  cachedDecision clipperState w = None ->
  fst (ratingsPromptEnabledForClient name (clipperType (clientInfo clipperState)) w)
    = true ->
  (forall flag : string,
     storage w !! StorageKeys.doNotPromptRatings = Some flag ->
     toLowerCase flag <> "true") ->
  exists (e : LogEvent) (info : RatingsLoggingInfo),
    logged (snd (shouldShowRatingsPrompt cfg name (Some clipperState) w))
    = (logged w ++ [e])%list /\
    customProperties e !! "RatingsInfo" = Some (PJson info) /\
    info !! "badRatingTimingDelayIsOver"
    = Some (VBool (badRatingTimingDelayIsOver cfg
                     (parseInt (storage w !! StorageKeys.lastBadRatingDate))
                     (ofZ (clock w)))) /\
    info !! "badRatingVersionDelayIsOver"
    = Some (VBool (badRatingVersionDelayIsOver
                     (storage w !! StorageKeys.lastBadRatingVersion)
                     (storage w !! StorageKeys.lastSeenVersion))) /\
    info !! "clipSuccessDelayIsOver"
    = Some (VBool (clipSuccessDelayIsOver cfg
                     (parseInt (storage w !! StorageKeys.numSuccessfulClips)))) /\
    info !! "numSuccessfulClips"
    = Some (VNum (parseInt (storage w !! StorageKeys.numSuccessfulClips))) /\
    info !! "ratingsPromptEnabledForClient" = Some (VBool true) /\
    info !! "usedCachedValue" = None /\ info !! "doNotPromptRatings" = None.
Proof.
  intros Hc He Hflag.
  assert (Hf : match storage w !! StorageKeys.doNotPromptRatings with
               | Some s => String.eqb (toLowerCase s) "true"
               | None => false
               end = false).
  { apply not_true_iff_false. rewrite doNotPrompt_flag.
    intros (flag & Hs & Ht). exact (Hflag flag Hs Ht). }
  destruct w as [st se sv cl rd wr lg]. run_steps.
  rewrite Hc. run_steps. rewrite He. run_steps. rewrite Hf. run_steps.
  destruct (badRatingTimingDelayIsOver cfg _ _ && badRatingVersionDelayIsOver _ _
            && clipSuccessDelayIsOver cfg _); run_steps;
    (eexists _, _; split; [reflexivity|]; cbn [customProperties];
     split; [apply lookup_insert_eq|];
     repeat split;
     repeat (first [ apply lookup_insert_eq
                   | rewrite lookup_insert_ne by discriminate
                   | apply lookup_empty ])).
Qed.

End Composition.

(** * The further properties on the example data *)

Lemma badRatingVersionDelayIsOver_strict_order_witness :
  badRatingVersionDelayIsOver (Some "1.2.0") (Some "1.3.0") = true /\
  badRatingVersionDelayIsOver (Some "1.3.0") (Some "2.0.0") = true /\
  badRatingVersionDelayIsOver (Some "1.3.0") (Some "1.2.0") = false /\
  badRatingVersionDelayIsOver (Some "1.2.0") (Some "2.0.0") = true.
Proof.
  pose proof badRatingVersionDelayIsOver_strict_order as (_ & Hasym & Htrans).
  assert (H1 : badRatingVersionDelayIsOver (Some "1.2.0") (Some "1.3.0") = true)
    by reflexivity.
  assert (H2 : badRatingVersionDelayIsOver (Some "1.3.0") (Some "2.0.0") = true)
    by reflexivity.
  split; [exact H1|]. split; [exact H2|]. split.
  - exact (Hasym _ _ H1).
  - exact (Htrans _ _ _ H1 H2).
Defined.

Lemma badRatingTimingDelayIsOver_later_witness :
  (badRatingTimingDelayIsOver exampleSettings (ofZ 1000) (ofZ 6048001000) = true /\
   js_le (ofZ 6048001000) (ofZ 6048002000) = true /\
   isValidDate exampleSettings (ofZ 6048002000) = true /\
   badRatingTimingDelayIsOver exampleSettings (ofZ 1000) (ofZ 6048002000) = true) /\
  (0 < minTimeBetweenBadRatings exampleSettings /\ isNaN (ofZ 1000) = false /\
   badRatingTimingDelayIsOver exampleSettings (ofZ 1000) (ofZ 1000) = false).
Proof.
  pose proof (badRatingTimingDelayIsOver_later exampleSettings) as (Hlater & Hsame).
  assert (H0 : 0 < minTimeBetweenBadRatings exampleSettings) by (simpl; lia).
  split.
  - split; [reflexivity|]. split; [reflexivity|]. split; [reflexivity|].
    apply (Hlater (ofZ 1000) (ofZ 6048001000)); reflexivity.
  - split; [exact H0|]. split; [reflexivity|]. apply Hsame; [exact H0 | reflexivity].
Defined.

Lemma clipSuccessDelayIsOver_empty_window_witness :
  maxClipSuccessForRatingsPrompt (mkSettings 8640000000000000 6048000000 10 3)
  < minClipSuccessForRatingsPrompt (mkSettings 8640000000000000 6048000000 10 3) /\
  clipSuccessDelayIsOver (mkSettings 8640000000000000 6048000000 10 3) (ofZ 5) = false.
Proof.
  assert (H : maxClipSuccessForRatingsPrompt (mkSettings 8640000000000000 6048000000 10 3)
              < minClipSuccessForRatingsPrompt
                  (mkSettings 8640000000000000 6048000000 10 3))
    by (simpl; lia).
  split; [exact H|]. exact (clipSuccessDelayIsOver_empty_window _ (ofZ 5) H).
Defined.

Lemma setDoNotPromptStatus_suppresses_witness :
  cachedDecision exampleSession freshWorld = None /\
  fst (shouldShowRatingsPrompt exampleSettings ExampleClient_name (Some exampleSession)
         freshWorld) = true /\
  fst (shouldShowRatingsPrompt exampleSettings ExampleClient_name (Some exampleSession)
         (snd (setDoNotPromptStatus freshWorld))) = false.
Proof.
  assert (Hc : cachedDecision exampleSession freshWorld = None)
    by (vm_compute; reflexivity).
  split; [exact Hc|]. split; [vm_compute; reflexivity|].
  exact (setDoNotPromptStatus_suppresses exampleSettings ExampleClient_name
           exampleSession freshWorld Hc).
Defined.

Lemma setDoNotPromptStatus_effect_witness :
  "numSuccessfulClips" <> StorageKeys.doNotPromptRatings /\
  storage (snd (setDoNotPromptStatus freshWorld)) !! "numSuccessfulClips"
  = storage freshWorld !! "numSuccessfulClips".
Proof.
  assert (H : "numSuccessfulClips" <> StorageKeys.doNotPromptRatings) by discriminate.
  split; [exact H|].
  exact (proj1 (proj2 (setDoNotPromptStatus_effect freshWorld)) _ H).
Defined.

Lemma setLastBadRating_twice_witness :
  isValidDate exampleSettings (parseInt (Some "1000")) = true /\
  versionHasCorrectFormat (Some "3.0.1") = true /\
  isValidDate exampleSettings (parseInt (Some "2000")) = true /\
  versionHasCorrectFormat (Some "3.1.0") = true /\
  fst (setLastBadRating exampleSettings "1000" "3.0.1" emptyWorld) = false /\
  fst (setLastBadRating exampleSettings "2000" "3.1.0"
         (snd (setLastBadRating exampleSettings "1000" "3.0.1" emptyWorld))) = true.
Proof.
  repeat (split; [reflexivity|]).
  exact (proj1 (setLastBadRating_twice exampleSettings "1000" "3.0.1" "2000" "3.1.0"
                  emptyWorld eq_refl eq_refl eq_refl eq_refl)).
Defined.

Lemma setLastBadRating_frame_witness :
  "numSuccessfulClips" <> StorageKeys.lastBadRatingDate /\
  "numSuccessfulClips" <> StorageKeys.lastBadRatingVersion /\
  storage (snd (setLastBadRating exampleSettings "1000" "3.0.1" freshWorld))
  !! "numSuccessfulClips"
  = storage freshWorld !! "numSuccessfulClips".
Proof.
  assert (H1 : "numSuccessfulClips" <> StorageKeys.lastBadRatingDate) by discriminate.
  assert (H2 : "numSuccessfulClips" <> StorageKeys.lastBadRatingVersion) by discriminate.
  split; [exact H1|]. split; [exact H2|].
  exact (proj1 (setLastBadRating_frame exampleSettings "1000" "3.0.1" freshWorld)
           _ H1 H2).
Defined.

Lemma setLastBadRating_same_version_witness :
  isValidDate exampleSettings (parseInt (Some "1000")) = true /\
  versionHasCorrectFormat (Some "3.0.1") = true /\
  storage returningWorld !! StorageKeys.lastSeenVersion = Some "3.0.1" /\
  cachedDecision exampleSession returningWorld = None /\
  fst (shouldShowRatingsPrompt exampleSettings ExampleClient_name (Some exampleSession)
         returningWorld) = true /\
  fst (shouldShowRatingsPrompt exampleSettings ExampleClient_name (Some exampleSession)
         (snd (setLastBadRating exampleSettings "1000" "3.0.1" returningWorld)))
  = false.
Proof.
  assert (Hs : storage returningWorld !! StorageKeys.lastSeenVersion = Some "3.0.1")
    by (vm_compute; reflexivity).
  assert (Hc : cachedDecision exampleSession returningWorld = None)
    by (vm_compute; reflexivity).
  split; [reflexivity|]. split; [reflexivity|]. split; [exact Hs|].
  split; [exact Hc|]. split; [vm_compute; reflexivity|].
  exact (setLastBadRating_same_version exampleSettings ExampleClient_name
           "1000" "3.0.1" exampleSession returningWorld eq_refl eq_refl Hs Hc).
Defined.

Lemma setLastBadRating_too_soon_witness :
  Z.abs (minTimeBetweenBadRatings exampleSettings) < 2 ^ 53 /\
  parseInt (Some "1499999999000") = ofZ 1499999999000 /\
  isValidDate exampleSettings (ofZ 1499999999000) = true /\
  versionHasCorrectFormat (Some "2.9.0") = true /\
  clock returningWorld < 1499999999000 + minTimeBetweenBadRatings exampleSettings /\
  cachedDecision exampleSession returningWorld = None /\
  fst (shouldShowRatingsPrompt exampleSettings ExampleClient_name (Some exampleSession)
         (snd (setLastBadRating exampleSettings "1499999999000" "2.9.0"
                 returningWorld)))
  = false.
Proof.
  assert (Hm : Z.abs (minTimeBetweenBadRatings exampleSettings) < 2 ^ 53)
    by (vm_compute; reflexivity).
  assert (Hp : parseInt (Some "1499999999000") = ofZ 1499999999000)
    by (vm_compute; reflexivity).
  assert (Hk : clock returningWorld
               < 1499999999000 + minTimeBetweenBadRatings exampleSettings)
    by (simpl; lia).
  assert (Hc : cachedDecision exampleSession returningWorld = None)
    by (vm_compute; reflexivity).
  split; [exact Hm|]. split; [exact Hp|]. split; [reflexivity|].
  split; [reflexivity|]. split; [exact Hk|]. split; [exact Hc|].
  exact (setLastBadRating_too_soon exampleSettings ExampleClient_name
           "1499999999000" "2.9.0" 1499999999000 exampleSession returningWorld
           Hm Hp eq_refl eq_refl Hk Hc).
Defined.

Lemma shouldShowRatingsPrompt_true_only_if_witness :
  cachedDecision exampleSession freshWorld = None /\
  fst (shouldShowRatingsPrompt exampleSettings ExampleClient_name (Some exampleSession)
         freshWorld) = true /\
  exists numClips : Z,
    parseInt (storage freshWorld !! StorageKeys.numSuccessfulClips) = ofZ numClips /\
    minClipSuccessForRatingsPrompt exampleSettings <= numClips
      <= maxClipSuccessForRatingsPrompt exampleSettings.
Proof.
  assert (Hc : cachedDecision exampleSession freshWorld = None)
    by (vm_compute; reflexivity).
  assert (Hr : fst (shouldShowRatingsPrompt exampleSettings ExampleClient_name
                      (Some exampleSession) freshWorld) = true)
    by (vm_compute; reflexivity).
  split; [exact Hc|]. split; [exact Hr|].
  exact (proj2 (proj2 (shouldShowRatingsPrompt_true_only_if exampleSettings
                         ExampleClient_name exampleSession freshWorld Hc Hr))).
Defined.

Lemma freshWorld_no_flag (flag : string) :
  storage freshWorld !! StorageKeys.doNotPromptRatings = Some flag ->
  toLowerCase flag <> "true".
Proof. intros H. vm_compute in H. discriminate H. Defined.

Lemma shouldShowRatingsPrompt_first_time_witness :
  cachedDecision exampleSession freshWorld = None /\
  storage freshWorld !! StorageKeys.lastBadRatingDate = None /\
  storage freshWorld !! StorageKeys.lastBadRatingVersion = None /\
  fst (shouldShowRatingsPrompt exampleSettings ExampleClient_name (Some exampleSession)
         freshWorld)
  = clipSuccessDelayIsOver exampleSettings
      (parseInt (storage freshWorld !! StorageKeys.numSuccessfulClips)).
Proof.
  assert (Hc : cachedDecision exampleSession freshWorld = None)
    by (vm_compute; reflexivity).
  assert (He : fst (ratingsPromptEnabledForClient ExampleClient_name
                      (clipperType (clientInfo exampleSession)) freshWorld) = true)
    by (vm_compute; reflexivity).
  assert (Hd : storage freshWorld !! StorageKeys.lastBadRatingDate = None)
    by (vm_compute; reflexivity).
  assert (Hv : storage freshWorld !! StorageKeys.lastBadRatingVersion = None)
    by (vm_compute; reflexivity).
  split; [exact Hc|]. split; [exact Hd|]. split; [exact Hv|].
  exact (shouldShowRatingsPrompt_first_time exampleSettings ExampleClient_name
           exampleSession freshWorld Hc He freshWorld_no_flag Hd Hv).
Defined.

Lemma shouldShowRatingsPrompt_records_delays_witness :
  cachedDecision exampleSession freshWorld = None /\
  exists (e : LogEvent) (info : RatingsLoggingInfo),
    logged (snd (shouldShowRatingsPrompt exampleSettings ExampleClient_name
                   (Some exampleSession) freshWorld))
    = (logged freshWorld ++ [e])%list /\
    customProperties e !! "RatingsInfo" = Some (PJson info) /\
    info !! "clipSuccessDelayIsOver"
    = Some (VBool (clipSuccessDelayIsOver exampleSettings
                     (parseInt (storage freshWorld !! StorageKeys.numSuccessfulClips)))).
Proof.
  assert (Hc : cachedDecision exampleSession freshWorld = None)
    by (vm_compute; reflexivity).
  assert (He : fst (ratingsPromptEnabledForClient ExampleClient_name
                      (clipperType (clientInfo exampleSession)) freshWorld) = true)
    by (vm_compute; reflexivity).
  split; [exact Hc|].
  destruct (shouldShowRatingsPrompt_records_delays exampleSettings ExampleClient_name
              exampleSession freshWorld Hc He freshWorld_no_flag)
    as (e & info & Hl & Hi & _ & _ & Hclip & _).
  exists e, info. split; [exact Hl|]. split; [exact Hi | exact Hclip].
Defined.
